(** * Offer ranking of the Quick Deals shopping assistant

    A shallow embedding of [app.py]: the flattening of a catalog entry into
    one feature row per offer ([chat]), and the scoring and top-k ranking of
    those rows ([infer_topk]) by the fallback heuristic or by the learned
    model.

    Modelling choices, all taken from the source:
    - numbers are IEEE-754 binary64 values (Rocq's primitive floats), as in
      pandas' float64 columns; a JSON integer is the binary64 value it
      converts to;
    - a [DataFrame] is a row index with an ordered list of named columns;
      [infer_topk] mutates the frame it is given, so it is written in a state
      and exception monad whose state is that frame;
    - library code the source calls but does not contain is a [Variable]:
      numpy's index sort behind [sort_values], pandas' coercion of non-numeric
      objects in [to_numeric], Python's [str], and the fitted transform and
      regressor of the artifact;
    - the last step of [chat], which formats the ranked records and
      serialises the answer, depends on pandas' unboxing of cells and on the
      JSON encoder; it is a [Variable] too, one that may raise. *)

From Stdlib Require Import Floats ZArith PArith String List Bool Lia.
From Stdlib Require Import Permutation Sorted.
Import ListNotations.

Set Warnings "-inexact-float".

(** ** Python values *)

(** A float that is not NaN. *)
Definition not_nan (x : float) : Prop := PrimFloat.is_nan x = false.

Inductive exn : Type :=
| AttributeError
| KeyError
| ValueError
| TypeError.

(** The outcome of evaluating a Python expression: a value or a raised
    exception. *)
Inductive Result (A : Type) : Type :=
| Ok (a : A)
| Raise (e : exn).

Arguments Ok {A} a.
Arguments Raise {A} e.

Definition rmap {A B : Type} (f : A -> B) (r : Result A) : Result B :=
  match r with
  | Ok a => Ok (f a)
  | Raise e => Raise e
  end.

Definition rbind {A B : Type} (r : Result A) (f : A -> Result B) : Result B :=
  match r with
  | Ok a => f a
  | Raise e => Raise e
  end.

(** A value held by a JSON attribute or by a cell of a frame.  [CNone] is
    Python's [None] (a JSON [null]); [CNum] carries [np.nan] as well. *)
#[warnings="-register-all"]
Inductive cell : Type :=
| CNone
| CNum (x : float)
| CBool (b : bool)
| CStr (s : string)
| CDict (kvs : list (string * cell)).

(** A JSON object read by [json.load]: a Python [dict] with string keys. *)
Definition pydict : Type := list (string * cell).

Fixpoint dict_lookup (k : string) (d : pydict) : option cell :=
  match d with
  | [] => None
  | (k', v) :: rest => if String.eqb k' k then Some v else dict_lookup k rest
  end.

(** [d.get(k, default)]. *)
Definition dict_get_or (d : pydict) (k : string) (default : cell) : cell :=
  match dict_lookup k d with
  | Some v => v
  | None => default
  end.

(** [d.get(k)]: [None] when the key is absent. *)
Definition dict_get (d : pydict) (k : string) : cell := dict_get_or d k CNone.

(** Truth value of a Python object, as [if x] and [x if c else y] test it. *)
Definition truthy (c : cell) : bool :=
  match c with
  | CNone => false
  | CNum x => negb (PrimFloat.eqb x 0%float)
  | CBool b => b
  | CStr s => negb (String.eqb s EmptyString)
  | CDict kvs => match kvs with [] => false | _ => true end
  end.

(** A missing value in pandas' sense ([isna]): [None] or NaN. *)
Definition absent (c : cell) : bool :=
  match c with
  | CNone => true
  | CNum x => PrimFloat.is_nan x
  | _ => false
  end.

(** ** The catalog (data/products.json) *)

(** One entry of a product's ["variants"] list: its ["specifications"]
    object ([{}] when absent) and its ["offers"] list ([[]] when absent),
    each offer a JSON object. *)
Record Variant : Type := mkVariant {
  specifications : pydict;
  offers : list pydict
}.

(** One entry of the catalog's ["products"] list: the ["product_name"] key
    the name lookup indexes, the remaining scalar attributes (["brand"],
    ["description"], ["base_image_url"]) and the ["variants"] list ([[]]
    when absent). *)
Record Product : Type := mkProduct {
  product_name : string;
  attributes : pydict;
  variants : list Variant
}.

(** The dictionary [chat] appends to [offers] for one offer: ten model
    features and three display fields, always with the same thirteen keys. *)
Record FeatureRow : Type := mkFeatureRow {
  row_brand : cell;
  row_price : cell;
  row_rating : cell;
  row_rating_count : cell;
  row_delivery_in_days : cell;
  row_is_trusted_seller : cell;
  row_RAM_GB : cell;
  row_warranty_months : cell;
  row_is_replaceable : cell;
  row_Color : cell;
  row_product_name : cell;
  row_seller_name : cell;
  row_specifications : cell
}.

(** ** Data frames *)

(** A pandas [DataFrame]: the row labels and the columns in their order, each
    column holding one cell per row. *)
Record DataFrame : Type := mkDataFrame {
  index : list nat;
  columns : list (string * list cell)
}.

Definition nrows (df : DataFrame) : nat := length (index df).

Definition column_names (df : DataFrame) : list string := map fst (columns df).

(** Every column has one cell per row label. *)
Definition well_formed (df : DataFrame) : Prop :=
  Forall (fun c => length (snd c) = nrows df) (columns df).

Fixpoint lookup (name : string) (cols : list (string * list cell))
  : option (list cell) :=
  match cols with
  | [] => None
  | (n, c) :: rest => if String.eqb n name then Some c else lookup name rest
  end.

(** [df[name] = values]: an existing column is replaced where it stands, a
    new one is appended. *)
Fixpoint assign (name : string) (values : list cell)
  (cols : list (string * list cell)) : list (string * list cell) :=
  match cols with
  | [] => [(name, values)]
  | (n, c) :: rest =>
      if String.eqb n name then (n, values) :: rest
      else (n, c) :: assign name values rest
  end.

Definition set_column (name : string) (values : list cell) (df : DataFrame)
  : DataFrame :=
  mkDataFrame (index df) (assign name values (columns df)).

(** [name in df.columns]. *)
Definition has_column (name : string) (df : DataFrame) : bool :=
  match lookup name (columns df) with
  | Some _ => true
  | None => false
  end.

(** [pd.DataFrame(offers)] for a list of dictionaries that all have the
    thirteen keys of a [FeatureRow]: the columns follow the key order and the
    row labels are [0 .. n-1]; an empty list gives a frame with no column. *)
Definition DataFrame_of_records (offers : list FeatureRow) : DataFrame :=
  match offers with
  | [] => mkDataFrame [] []
  | _ =>
      mkDataFrame (seq 0 (length offers))
        [ ("brand"%string, map row_brand offers);
          ("price"%string, map row_price offers);
          ("rating"%string, map row_rating offers);
          ("rating_count"%string, map row_rating_count offers);
          ("delivery_in_days"%string, map row_delivery_in_days offers);
          ("is_trusted_seller"%string, map row_is_trusted_seller offers);
          ("RAM_GB"%string, map row_RAM_GB offers);
          ("warranty_months"%string, map row_warranty_months offers);
          ("is_replaceable"%string, map row_is_replaceable offers);
          ("Color"%string, map row_Color offers);
          ("product_name"%string, map row_product_name offers);
          ("seller_name"%string, map row_seller_name offers);
          ("specifications"%string, map row_specifications offers) ]
  end.

(** Positional row selection ([df.iloc[positions]]): labels and cells move
    together. *)
Definition take_rows (positions : list nat) (df : DataFrame) : DataFrame :=
  mkDataFrame
    (map (fun i => nth i (index df) 0) positions)
    (map (fun c => (fst c, map (fun i => nth i (snd c) CNone) positions))
         (columns df)).

(** [df.head(k)], that is [df.iloc[:k]]: the first [k] rows, and for a
    negative [k] all rows but the last [-k]. *)
Definition head (k : Z) (df : DataFrame) : DataFrame :=
  let n := Z.of_nat (nrows df) in
  let stop := if (k <? 0)%Z then Z.max 0 (n + k) else Z.min k n in
  take_rows (seq 0 (Z.to_nat stop)) df.

(** ** The state and exception monad of [infer_topk]

    The state is the frame object the caller passed in: an assignment
    [df[name] = ...] changes it for the caller too, and an exception leaves
    it as it was when raised. *)

Definition M (A : Type) : Type := DataFrame -> Result A * DataFrame.

Definition ret {A : Type} (a : A) : M A := fun df => (Ok a, df).

Definition bind {A B : Type} (m : M A) (f : A -> M B) : M B :=
  fun df =>
    match m df with
    | (Ok a, df') => f a df'
    | (Raise e, df') => (Raise e, df')
    end.

Definition lift {A : Type} (r : Result A) : M A := fun df => (r, df).

Definition read : M DataFrame := fun df => (Ok df, df).

Definition setitem (name : string) (values : list cell) : M unit :=
  fun df => (Ok tt, set_column name values df).

Declare Scope monad_scope.
Delimit Scope monad_scope with monad.
Notation "x <- m ;; k" := (bind m (fun x => k))
  (at level 61, m at next level, right associativity) : monad_scope.
Notation "m ;;; k" := (bind m (fun _ => k))
  (at level 61, right associativity) : monad_scope.

Local Open Scope monad_scope.
Local Open Scope string_scope.

(** ** pandas operations used by [infer_topk] *)

(** What [df.get(name, default)] evaluates to: the column as a [Series], or
    the bare default when the frame has no such column. *)
Inductive pyobj : Type :=
| Series (cells : list cell)
| Scalar (c : cell).

(** What [pd.to_numeric] returns: a numeric [Series] for a [Series], a plain
    number for a scalar. *)
Inductive numeric : Type :=
| NumSeries (xs : list float)
| NumScalar (x : float).

(** The artifact loaded from [xgb_ranking_pipeline.joblib]: the fitted
    [ColumnTransformer] with the feature names it was fitted on, and the
    fitted regressor.  Both are library objects; they act on a frame and on
    the transformed matrix, and may raise. *)
Record Preprocessor : Type := mkPreprocessor {
  feature_names_in_ : list string;
  transform : DataFrame -> Result (list (list float))
}.

Record Regressor : Type := mkRegressor {
  predict : list (list float) -> Result (list float)
}.

(** The module globals [preproc] and [model]: both [None] when loading the
    artifact failed. *)
Record Globals : Type := mkGlobals {
  preproc : option Preprocessor;
  model : option Regressor
}.

(** What the [/chat] route answers once the request body is read.  The top
    deals carry the formatted records of the ["products"] key. *)
Inductive Response : Type :=
| PromptForInput
| NotFound (user_input : string)
| NoOffersFound (name : string)
| TopDeals (name : string) (products : list pydict) (image description : cell).

(** One run of [chat]: its answer, and the frames it handed to [infer_topk],
    in call order. *)
Record ChatRun : Type := mkChatRun {
  response : Result Response;
  ranker_calls : list DataFrame
}.

Definition df_get (name : string) (default : cell) : M pyobj :=
  fun df =>
    (Ok (match lookup name (columns df) with
         | Some cells => Series cells
         | None => Scalar default
         end), df).

Definition fill_value (value x : float) : float :=
  if PrimFloat.is_nan x then value else x.

(** [Series.fillna(value)]; a plain number has no such method. *)
Definition fillna (v : numeric) (value : float) : Result (list float) :=
  match v with
  | NumSeries xs => Ok (map (fill_value value) xs)
  | NumScalar _ => Raise AttributeError
  end.

(** The float64 values of a column, as arithmetic and sorting read them. *)
Definition float_of_cell (c : cell) : Result float :=
  match c with
  | CNum x => Ok x
  | CNone => Ok nan
  | _ => Raise TypeError
  end.

Fixpoint values (cells : list cell) : Result (list float) :=
  match cells with
  | [] => Ok []
  | c :: rest =>
      rbind (float_of_cell c) (fun x => rmap (cons x) (values rest))
  end.

(** [df[name]] read as a numeric [Series]. *)
Definition getitem (name : string) : M (list float) :=
  fun df =>
    match lookup name (columns df) with
    | None => (Raise KeyError, df)
    | Some cells => (values cells, df)
    end.

(** [Series.max()]: the largest value, NaN skipped; NaN when there is none. *)
Definition nan_max (a b : float) : float :=
  if PrimFloat.is_nan a then b
  else if PrimFloat.is_nan b then a
  else if PrimFloat.ltb a b then b else a.

Definition series_max (xs : list float) : float := fold_left nan_max xs nan.

(** Element-wise arithmetic of a [Series] with a number and with a [Series]
    on the same index. *)
Definition series_div (xs : list float) (c : float) : list float :=
  map (fun x => (x / c)%float) xs.

Definition rsub (c : float) (xs : list float) : list float :=
  map (fun x => (c - x)%float) xs.

Definition rmul (c : float) (xs : list float) : list float :=
  map (fun x => (c * x)%float) xs.

Definition series_add (xs ys : list float) : list float :=
  map (fun p => (fst p + snd p)%float) (combine xs ys).

(** The right-hand side of [df["_pred_score"] = ...] in the fallback branch. *)
Definition fallback_formula (price rating delivery : list float) : list float :=
  series_add
    (series_add
       (rmul 0.4 (rsub 1 (series_div price (series_max price + 1e-6))))
       (rmul 0.3 (series_div rating 5)))
    (rmul 0.3 (rsub 1 (series_div delivery (series_max delivery + 1e-6)))).

(** [df[names]]: the named columns in the order asked for, on the same index. *)
Fixpoint select (names : list string) (cols : list (string * list cell))
  : Result (list (string * list cell)) :=
  match names with
  | [] => Ok []
  | n :: rest =>
      match lookup n cols with
      | None => Raise KeyError
      | Some c => rmap (cons (n, c)) (select rest cols)
      end
  end.

Definition getitem_columns (names : list string) : M DataFrame :=
  fun df => (rmap (mkDataFrame (index df)) (select names (columns df)), df).

(** [df[name] = array]: the array must have one value per row. *)
Definition setitem_array (name : string) (array : list float) : M unit :=
  fun df =>
    if Nat.eqb (length array) (nrows df)
    then (Ok tt, set_column name (map CNum array) df)
    else (Raise ValueError, df).

(** The loop [for col in feature_names: if col not in df.columns:
    df[col] = np.nan]. *)
Fixpoint add_missing_columns (feature_names : list string) : M unit :=
  match feature_names with
  | [] => ret tt
  | col :: rest =>
      (df <- read ;;
       if has_column col df then ret tt
       else setitem col (repeat (CNum nan) (nrows df))) ;;;
      add_missing_columns rest
  end.

(** The column a feature has in the frame handed to the transform: the
    caller's column, or the NaN placeholder. *)
Definition feature_column (df : DataFrame) (name : string) : list cell :=
  match lookup name (columns df) with
  | Some c => c
  | None => repeat (CNum nan) (nrows df)
  end.

Section App.

(** numpy's [argsort(kind="quicksort")] on a float64 array without NaN: the
    positions of the array in ascending order of their values. *)
Variable argsort : list float -> list nat.

(** [pd.to_numeric] on an object that is neither a number nor missing (a
    string, a boolean, a dictionary): pandas' parser, which may raise. *)
Variable coerce_object : cell -> Result float.

(** Python's [str], as an f-string applies it to a value. *)
Variable py_str : cell -> string.

(** The end of [chat], from [topk.to_dict(orient="records")] on: the loop
    that formats each record of the ranked frame ([int(p['price'])],
    [round], f-strings) and [JSONResponse], which serialises the answer for
    the matched entry.  It yields the formatted records, or the exception
    one of these calls raises, as [int] does on a NaN price and the encoder
    on a NaN score. *)
Variable format_results : Product -> DataFrame -> Result (list pydict).

Definition to_numeric_cell (c : cell) : Result float :=
  match c with
  | CNone => Ok nan
  | CNum x => Ok x
  | _ => coerce_object c
  end.

Fixpoint to_numeric_cells (cells : list cell) : Result (list float) :=
  match cells with
  | [] => Ok []
  | c :: rest =>
      rbind (to_numeric_cell c) (fun x => rmap (cons x) (to_numeric_cells rest))
  end.

(** [pd.to_numeric(arg)]. *)
Definition to_numeric (arg : pyobj) : Result numeric :=
  match arg with
  | Series cells => rmap NumSeries (to_numeric_cells cells)
  | Scalar c => rmap NumScalar (to_numeric_cell c)
  end.

(** [df[name] = pd.to_numeric(df.get(name, default)).fillna(default)]. *)
Definition fill_column (name : string) (default : float) : M unit :=
  v <- df_get name (CNum default) ;;
  n <- lift (to_numeric v) ;;
  s <- lift (fillna n default) ;;
  setitem name (map CNum s).

(** pandas' [nargsort] with [ascending=False] and [na_position="last"], which
    [sort_values] calls for a single sort column: the values that are not NaN
    are reversed, index-sorted ascending, and the result reversed again; the
    positions of the NaN values follow. *)
Definition nargsort (items : list float) : list nat :=
  let idx := seq 0 (length items) in
  let mask := fun i => PrimFloat.is_nan (nth i items nan) in
  let non_nan_idx := rev (filter (fun i => negb (mask i)) idx) in
  let non_nans := map (fun i => nth i items nan) non_nan_idx in
  let nan_idx := filter mask idx in
  let indexer := map (fun j => nth j non_nan_idx 0) (argsort non_nans) in
  (rev indexer ++ nan_idx)%list.

(** [df.sort_values(by, ascending=False)]: a new frame. *)
Definition sort_values (by_ : string) (df : DataFrame) : Result DataFrame :=
  match lookup by_ (columns df) with
  | None => Raise KeyError
  | Some cells => rmap (fun keys => take_rows (nargsort keys) df) (values cells)
  end.

(** The fallback branch of [infer_topk]. *)
Definition score_fallback : M unit :=
  fill_column "price" 1 ;;;
  fill_column "rating" 0 ;;;
  fill_column "delivery_in_days" 3 ;;;
  price <- getitem "price" ;;
  rating <- getitem "rating" ;;
  delivery <- getitem "delivery_in_days" ;;
  setitem "_pred_score" (map CNum (fallback_formula price rating delivery)).

(** The model branch of [infer_topk]. *)
Definition score_model (pre : Preprocessor) (mdl : Regressor) : M unit :=
  let feature_names := feature_names_in_ pre in
  add_missing_columns feature_names ;;;
  df_for_model <- getitem_columns feature_names ;;
  X_proc <- lift (transform pre df_for_model) ;;
  preds <- lift (predict mdl X_proc) ;;
  setitem_array "_pred_score" preds.

(** The scoring half of [infer_topk]: [if preproc is None or model is None]
    picks the branch. *)
Definition score (g : Globals) : M unit :=
  match preproc g with
  | None => score_fallback
  | Some pre =>
      match model g with
      | None => score_fallback
      | Some mdl => score_model pre mdl
      end
  end.

(** [infer_topk(df, k)]. *)
Definition infer_topk (g : Globals) (k : Z) : M DataFrame :=
  score g ;;;
  df <- read ;;
  lift (rmap (head k) (sort_values "_pred_score" df)).

(** The display summary [chat] stores under ["specifications"]. *)
Definition specs_summary (specs : pydict) : cell :=
  CDict
    [ ("RAM", CStr (py_str (dict_get_or specs "RAM_GB" (CStr "N/A")) ++ " GB"));
      ("Storage",
       CStr (py_str (dict_get_or specs "Storage_GB" (CStr "N/A")) ++ " GB"));
      ("Color", dict_get_or specs "Color" (CStr "N/A"));
      ("Warranty",
       CStr (py_str (dict_get_or specs "warranty_months" (CStr "N/A"))
             ++ " Months"));
      ("Replaceable",
       CStr (if truthy (dict_get specs "is_replaceable") then "Yes" else "No")) ].

(** The dictionary appended for one offer of one variant. *)
Definition offer_row (product : Product) (specs offer : pydict) : FeatureRow :=
  {| row_brand := dict_get (attributes product) "brand";
     row_price := dict_get offer "price";
     row_rating := dict_get offer "rating";
     row_rating_count := dict_get offer "rating_count";
     row_delivery_in_days := dict_get offer "delivery_in_days";
     row_is_trusted_seller := dict_get offer "is_trusted_seller";
     row_RAM_GB := dict_get specs "RAM_GB";
     row_warranty_months := dict_get specs "warranty_months";
     row_is_replaceable := dict_get specs "is_replaceable";
     row_Color := dict_get specs "Color";
     row_product_name := CStr (product_name product);
     row_seller_name := dict_get offer "seller_name";
     row_specifications := specs_summary specs |}.

(** The two nested loops of [chat] that fill [offers]. *)
Definition flatten_offers (product : Product) : list FeatureRow :=
  flat_map
    (fun variant =>
       map (offer_row product (specifications variant)) (offers variant))
    (variants product).

(** [chat], from the stripped message on; [found] is what
    [find_product_by_name(user_input)] returned.  An exception of
    [infer_topk] or of the formatting is the exception of [chat]. *)
Definition chat (g : Globals) (user_input : string) (found : option Product)
  : ChatRun :=
  if String.eqb user_input "" then mkChatRun (Ok PromptForInput) []
  else
    match found with
    | None => mkChatRun (Ok (NotFound user_input)) []
    | Some product =>
        match flatten_offers product with
        | [] => mkChatRun (Ok (NoOffersFound (product_name product))) []
        | offers =>
            let df := DataFrame_of_records offers in
            let (topk, _) := infer_topk g 3 df in
            mkChatRun
              (rmap (fun products =>
                       TopDeals (product_name product) products
                         (dict_get_or (attributes product) "base_image_url"
                            (CStr ""))
                         (dict_get_or (attributes product) "description"
                            (CStr "")))
                    (rbind topk (format_results product)))
              [df]
        end
    end.

(** *** Vocabulary of the statements *)

(** The fallback heuristic is the active strategy. *)
Definition fallback_active (g : Globals) : Prop :=
  preproc g = None \/ model g = None.

(** The values a column holds after
    [pd.to_numeric(column).fillna(default)]. *)
Definition defaulted (default : float) (cells : list cell)
  : Result (list float) :=
  rmap (map (fill_value default)) (to_numeric_cells cells).

(** The score column of a frame. *)
Definition scores_of (df : DataFrame) : Result (list float) :=
  fst (getitem "_pred_score" df).

(** The frame [preproc.transform] is applied to: [df[feature_names]] after
    the missing columns were added. *)
Definition model_input (pre : Preprocessor) (df : DataFrame)
  : Result DataFrame :=
  let names := feature_names_in_ pre in
  fst (getitem_columns names (snd (add_missing_columns names df))).

(** The fallback branch in closed form: where it stops, with which
    exception, and the frame it leaves. *)
Definition fallback_outcome (df : DataFrame) : Result unit * DataFrame :=
  match lookup "price" (columns df) with
  | None => (Raise AttributeError, df)
  | Some cp =>
  match defaulted 1 cp with
  | Raise e => (Raise e, df)
  | Ok P =>
  let df1 := set_column "price" (map CNum P) df in
  match lookup "rating" (columns df) with
  | None => (Raise AttributeError, df1)
  | Some cr =>
  match defaulted 0 cr with
  | Raise e => (Raise e, df1)
  | Ok R =>
  let df2 := set_column "rating" (map CNum R) df1 in
  match lookup "delivery_in_days" (columns df) with
  | None => (Raise AttributeError, df2)
  | Some cd =>
  match defaulted 3 cd with
  | Raise e => (Raise e, df2)
  | Ok D =>
  let df3 := set_column "delivery_in_days" (map CNum D) df2 in
  (Ok tt, set_column "_pred_score" (map CNum (fallback_formula P R D)) df3)
  end end end end end end.

(** The batch can be scored by the active strategy: under the fallback its
    three columns exist and convert to numbers; under the model the fitted
    transform and regressor accept the frame and give one prediction per
    row. *)
Definition scorable_fallback (df : DataFrame) : Prop :=
  exists cp cr cd P R D,
    lookup "price" (columns df) = Some cp /\
    lookup "rating" (columns df) = Some cr /\
    lookup "delivery_in_days" (columns df) = Some cd /\
    defaulted 1 cp = Ok P /\ defaulted 0 cr = Ok R /\ defaulted 3 cd = Ok D.

Definition scorable_model (pre : Preprocessor) (mdl : Regressor)
  (df : DataFrame) : Prop :=
  exists input X preds,
    model_input pre df = Ok input /\
    transform pre input = Ok X /\
    predict mdl X = Ok preds /\
    length preds = nrows df.

Definition scorable (g : Globals) (df : DataFrame) : Prop :=
  match preproc g, model g with
  | Some pre, Some mdl => scorable_model pre mdl df
  | _, _ => scorable_fallback df
  end.

(** The score column is not itself a feature of the fitted transform. *)
Definition score_not_a_feature (g : Globals) : Prop :=
  match preproc g, model g with
  | Some pre, Some _ => ~ In "_pred_score" (feature_names_in_ pre)
  | _, _ => True
  end.

(** The contract of numpy's index sort on an array without NaN: a
    permutation of the positions, along which the values ascend. *)
Definition sorts_ascending : Prop :=
  forall v : list float,
    Forall not_nan v ->
    Permutation (argsort v) (seq 0 (length v)) /\
    StronglySorted (fun x y => PrimFloat.leb x y = true)
      (map (fun j => nth j v nan) (argsort v)).

(** The index sort is stable on [v]: positions of equal values come out in
    increasing order. *)
Definition stable_on (v : list float) : Prop :=
  StronglySorted
    (fun i j => PrimFloat.eqb (nth i v nan) (nth j v nan) = true -> i < j)
    (argsort v).

End App.

(** No later score exceeds an earlier one. *)
Definition non_increasing (scores : list float) : Prop :=
  StronglySorted (fun x y => PrimFloat.ltb x y = false) scores.

(** The array pandas' [nargsort] hands to the index sort for the sort keys
    [items]: the keys that are not NaN, reversed ([non_nans[::-1]]). *)
Definition non_nans (items : list float) : list float :=
  map (fun i => nth i items nan)
    (rev (filter (fun i => negb (PrimFloat.is_nan (nth i items nan)))
            (seq 0 (length items)))).

(** Rows of equal score are returned in input order.  [scores] are the
    scores of a frame, by position, and [returned] the positions of the rows
    returned, in the order of the output: two returned rows of equal score
    stand in increasing position, and no row left out precedes, in the
    input, a returned row of the same score. *)
Definition ties_in_input_order (scores : list float) (returned : list nat)
  : Prop :=
  StronglySorted
    (fun i j =>
       PrimFloat.eqb (nth i scores nan) (nth j scores nan) = true -> i < j)
    returned /\
  forall i j,
    In i returned -> j < length scores -> ~ In j returned ->
    PrimFloat.eqb (nth i scores nan) (nth j scores nan) = true -> i < j.

(** The frame the fallback branch leaves for a non-empty batch of feature
    rows whose defaulted columns are [P], [R] and [D]: three columns
    overwritten where they stand and the score column appended. *)
Definition scored_records (offers : list FeatureRow) (P R D : list float)
  : DataFrame :=
  mkDataFrame (seq 0 (length offers))
    [ ("brand", map row_brand offers);
      ("price", map CNum P);
      ("rating", map CNum R);
      ("rating_count", map row_rating_count offers);
      ("delivery_in_days", map CNum D);
      ("is_trusted_seller", map row_is_trusted_seller offers);
      ("RAM_GB", map row_RAM_GB offers);
      ("warranty_months", map row_warranty_months offers);
      ("is_replaceable", map row_is_replaceable offers);
      ("Color", map row_Color offers);
      ("product_name", map row_product_name offers);
      ("seller_name", map row_seller_name offers);
      ("specifications", map row_specifications offers);
      ("_pred_score", map CNum (fallback_formula P R D)) ].

(** Two runs agree on what they return and on the scores they leave. *)
Definition same_ranking (a b : Result DataFrame * DataFrame) : Prop :=
  fst a = fst b /\ scores_of (snd a) = scores_of (snd b).

(** [rows] with the row at position [i] replaced by [f] of it. *)
Fixpoint update_row (i : nat) (f : FeatureRow -> FeatureRow)
  (rows : list FeatureRow) : list FeatureRow :=
  match rows, i with
  | [], _ => []
  | r :: rest, O => f r :: rest
  | r :: rest, S i' => r :: update_row i' f rest
  end.

Definition with_price (c : cell) (r : FeatureRow) : FeatureRow :=
  mkFeatureRow (row_brand r) c (row_rating r) (row_rating_count r)
    (row_delivery_in_days r) (row_is_trusted_seller r) (row_RAM_GB r)
    (row_warranty_months r) (row_is_replaceable r) (row_Color r)
    (row_product_name r) (row_seller_name r) (row_specifications r).

Definition with_rating (c : cell) (r : FeatureRow) : FeatureRow :=
  mkFeatureRow (row_brand r) (row_price r) c (row_rating_count r)
    (row_delivery_in_days r) (row_is_trusted_seller r) (row_RAM_GB r)
    (row_warranty_months r) (row_is_replaceable r) (row_Color r)
    (row_product_name r) (row_seller_name r) (row_specifications r).

Definition with_delivery_in_days (c : cell) (r : FeatureRow) : FeatureRow :=
  mkFeatureRow (row_brand r) (row_price r) (row_rating r) (row_rating_count r)
    c (row_is_trusted_seller r) (row_RAM_GB r)
    (row_warranty_months r) (row_is_replaceable r) (row_Color r)
    (row_product_name r) (row_seller_name r) (row_specifications r).

(** ** Index sorts *)

(** A stable index sort by binary insertion from the right: what
    [argsort(kind="stable")] computes.  Positions with equal values stay in
    increasing order. *)
Fixpoint insert_position (v : list float) (i : nat) (sorted : list nat)
  : list nat :=
  match sorted with
  | [] => [i]
  | j :: rest =>
      if PrimFloat.leb (nth i v nan) (nth j v nan) then i :: sorted
      else j :: insert_position v i rest
  end.

Definition argsort_stable (v : list float) : list nat :=
  fold_right (insert_position v) [] (seq 0 (length v)).

(** An index sort that meets the contract of [argsort(kind="quicksort")],
    an ascending order of the values, and is not stable: insertion behind
    the equal values, so that positions of equal values come out in
    decreasing order. *)
Fixpoint insert_behind_ties (v : list float) (i : nat) (sorted : list nat)
  : list nat :=
  match sorted with
  | [] => [i]
  | j :: rest =>
      if PrimFloat.ltb (nth i v nan) (nth j v nan) then i :: sorted
      else j :: insert_behind_ties v i rest
  end.

Definition argsort_unstable (v : list float) : list nat :=
  fold_right (insert_behind_ties v) [] (seq 0 (length v)).

(** ** Sample inputs of the worked examples *)

(** A coercion that rejects every object that is not a number; the samples
    below hold numbers and missing values only. *)
Definition rejects_objects (c : cell) : Result float := Raise ValueError.

Definition str_blank (c : cell) : string := "".

(** A formatter that keeps the score of each record and does not raise. *)
Definition score_records (product : Product) (topk : DataFrame)
  : Result (list pydict) :=
  Ok (map (fun c => [("score", c)]) (feature_column topk "_pred_score")).

(** No artifact was loaded: the fallback heuristic is active. *)
Definition no_artifact : Globals := mkGlobals None None.

Definition sample_offer (price rating delivery : cell) : FeatureRow :=
  mkFeatureRow (CStr "Acme") price rating (CNum 120) delivery (CBool true)
    (CNum 8) (CNum 12) (CBool true) (CStr "Black") (CStr "Phone X")
    (CStr "ShopOne") (CDict []).

(** The two offers of the specification's example. *)
Definition example_offers : list FeatureRow :=
  [ sample_offer (CNum 1000) (CNum 4.5) (CNum 2);
    sample_offer (CNum 500) (CNum 3) (CNum 5) ].

(** The same two prices, ratings and delivery times on offers that differ
    in every other field. *)
Definition relabelled_offers : list FeatureRow :=
  [ mkFeatureRow (CStr "Other") (CNum 1000) (CNum 4.5) (CNum 7) (CNum 2)
      (CBool false) CNone (CNum 24) (CBool false) (CStr "Red")
      (CStr "Phone Y") (CStr "ShopTwo") (CDict []);
    mkFeatureRow CNone (CNum 500) (CNum 3) CNone (CNum 5)
      CNone (CNum 4) CNone CNone CNone
      (CStr "Phone Y") CNone (CDict []) ].

(** An offer whose price, rating and delivery time are all missing, next to
    a complete one. *)
Definition sparse_offers : list FeatureRow :=
  [ sample_offer CNone CNone (CNum nan);
    sample_offer (CNum 800) (CNum 4) (CNum 4) ].

(** Four offers at the same price and delivery time: two rated 3, then two
    rated 5. *)
Definition paired_offers : list FeatureRow :=
  [ sample_offer (CNum 100) (CNum 3) (CNum 2);
    sample_offer (CNum 100) (CNum 3) (CNum 2);
    sample_offer (CNum 100) (CNum 5) (CNum 2);
    sample_offer (CNum 100) (CNum 5) (CNum 2) ].

(** Eighteen offers at the same price and delivery time: sixteen rated 3,
    then two rated 5. *)
Definition tied_offers : list FeatureRow :=
  (repeat (sample_offer (CNum 100) (CNum 3) (CNum 2)) 16 ++
   repeat (sample_offer (CNum 100) (CNum 5) (CNum 2)) 2)%list.

(** The features [train_and_rank.py] fits the transform on, in its order:
    [numeric_features + categorical_features + boolean_features]. *)
Definition trained_features : list string :=
  [ "price"; "rating"; "rating_count"; "delivery_in_days"; "RAM_GB";
    "warranty_months"; "brand"; "Color"; "is_trusted_seller";
    "is_replaceable" ].

(** A stand-in artifact: the transform reads every cell of the frame as a
    number (0 where it is missing or not a number), the regressor sums each
    row. *)
Definition toy_impute (c : cell) : float :=
  match c with
  | CNum x => if PrimFloat.is_nan x then 0%float else x
  | _ => 0%float
  end.

Definition toy_preproc : Preprocessor :=
  mkPreprocessor ["rating"; "price"; "discount"]
    (fun f =>
       Ok (map (fun i => map (fun c => toy_impute (nth i (snd c) CNone))
                           (columns f))
               (seq 0 (nrows f)))).

Definition toy_model : Regressor :=
  mkRegressor
    (fun X => Ok (map (fun row => fold_right PrimFloat.add 0%float row) X)).

Definition toy_artifact : Globals :=
  mkGlobals (Some toy_preproc) (Some toy_model).

(** A catalog entry whose variants list no offer, and one with two. *)
Definition product_without_offers : Product :=
  mkProduct "Phone X" [("brand", CStr "Acme")]
    [ mkVariant [("RAM_GB", CNum 8)] []; mkVariant [] [] ].

Definition product_with_offers : Product :=
  mkProduct "Phone X" [("brand", CStr "Acme")]
    [ mkVariant [("RAM_GB", CNum 8)]
        [ [("price", CNum 1000); ("rating", CNum 4.5);
           ("delivery_in_days", CNum 2)];
          [("price", CNum 500); ("rating", CNum 3);
           ("delivery_in_days", CNum 5)] ] ].

(** ** The name lookup, the training target and the trainer's rows *)

Section Lookup.

(** [difflib.get_close_matches(word, possibilities, n=1, cutoff=0.4)]: the
    best match among the possibilities, if any is close enough. *)
Variable get_close_matches : string -> list string -> list string.

(** [find_product_by_name(query)] over the module global [products_data]. *)
Definition find_product_by_name (products_data : list Product)
  (query : string) : option Product :=
  let all_names := map product_name products_data in
  match all_names with
  | [] => None
  | _ =>
      match get_close_matches query all_names with
      | [] => None
      | best :: _ =>
          find (fun p => String.eqb (product_name p) best) products_data
      end
  end.

(** The matcher returns only names it was given. *)
Definition returns_candidates : Prop :=
  forall word possibilities m,
    In m (get_close_matches word possibilities) -> In m possibilities.

(** [chat] together with the lookup it makes for the stripped message. *)
Definition chat_with_lookup (argsort : list float -> list nat)
  (coerce_object : cell -> Result float) (py_str : cell -> string)
  (format_results : Product -> DataFrame -> Result (list pydict))
  (g : Globals) (products_data : list Product) (user_input : string)
  : ChatRun :=
  chat argsort coerce_object py_str format_results g user_input
    (find_product_by_name products_data user_input).

End Lookup.

(** Element-wise product and quotient of two [Series] on the same index. *)
Definition series_mul (xs ys : list float) : list float :=
  map (fun p => (fst p * snd p)%float) (combine xs ys).

Definition series_quot (xs ys : list float) : list float :=
  map (fun p => (fst p / snd p)%float) (combine xs ys).

Section Training.

Variable coerce_object : cell -> Result float.

(** [np.log1p], element by element. *)
Variable log1p : float -> float.

(** The right-hand side of [df['bestness_score'] = ...] in
    [train_and_rank.main]. *)
Definition bestness_score (price rating rating_count : list float)
  : list float :=
  series_quot (series_mul rating (map log1p rating_count))
    (series_div price 1000).

(** The target column of the trainer for the price, rating and rating
    count columns of the flattened catalog: each is converted and filled
    (1, 0 and 0) before the target is computed. *)
Definition training_target (price rating rating_count : list cell)
  : Result (list float) :=
  rbind (defaulted coerce_object 1 price) (fun P =>
  rbind (defaulted coerce_object 0 rating) (fun R =>
  rbind (defaulted coerce_object 0 rating_count) (fun C =>
  Ok (bestness_score P R C)))).

End Training.

(** *** The trainer's flattening ([train_and_rank.load_and_flatten_data])

    The trainer indexes the catalog with [product['variants']],
    [variant['offers']], [variant['variant_id']] and
    [product['product_name']], which raise [KeyError] on a missing key, so
    its catalog entries record which of these keys are present. *)

Record CatalogVariant : Type := mkCatalogVariant {
  variant_id : option cell;
  variant_specifications : option pydict;
  variant_offers : option (list pydict)
}.

Record CatalogProduct : Type := mkCatalogProduct {
  entry_name : option cell;
  entry_attributes : pydict;
  entry_variants : option (list CatalogVariant)
}.

(** [d[key]]. *)
Definition required {A : Type} (value : option A) : Result A :=
  match value with
  | Some a => Ok a
  | None => Raise KeyError
  end.

(** The [row] dictionary of the trainer, in the order of its keys. *)
Definition training_row (name brand vid : cell) (specs offer : pydict)
  : pydict :=
  [ ("product_name", name);
    ("brand", brand);
    ("variant_id", vid);
    ("price", dict_get offer "price");
    ("rating", dict_get offer "rating");
    ("rating_count", dict_get offer "rating_count");
    ("delivery_in_days", dict_get offer "delivery_in_days");
    ("is_trusted_seller", dict_get offer "is_trusted_seller");
    ("RAM_GB", dict_get specs "RAM_GB");
    ("Storage_GB", dict_get specs "Storage_GB");
    ("Color", dict_get specs "Color");
    ("warranty_months", dict_get specs "warranty_months");
    ("is_replaceable", dict_get specs "is_replaceable") ].

(** Rows appended in sequence, up to the first exception. *)
Fixpoint concat_results {A : Type} (parts : list (Result (list A)))
  : Result (list A) :=
  match parts with
  | [] => Ok []
  | part :: rest =>
      rbind part (fun xs => rmap (app xs) (concat_results rest))
  end.

Definition rows_of_variant (product : CatalogProduct)
  (variant : CatalogVariant) : Result (list pydict) :=
  let specs :=
    match variant_specifications variant with
    | Some specs => specs
    | None => []
    end in
  rbind (required (variant_offers variant)) (fun offers =>
    concat_results
      (map (fun offer =>
              rbind (required (entry_name product)) (fun name =>
              rbind (required (variant_id variant)) (fun vid =>
              Ok [training_row name (dict_get (entry_attributes product) "brand")
                    vid specs offer])))
           offers)).

Definition rows_of_product (product : CatalogProduct)
  : Result (list pydict) :=
  rbind (required (entry_variants product)) (fun variants =>
    concat_results (map (rows_of_variant product) variants)).

(** The three nested loops of [load_and_flatten_data] over
    [data['products']]. *)
Definition load_and_flatten_data (products : list CatalogProduct)
  : Result (list pydict) :=
  concat_results (map rows_of_product products).

(** A catalog entry of [chat] read as one of the trainer, every key
    present and [vid] as the identifier of each variant. *)
Definition with_every_key (vid : cell) (product : Product) : CatalogProduct :=
  mkCatalogProduct (Some (CStr (product_name product))) (attributes product)
    (Some (map (fun v =>
                  mkCatalogVariant (Some vid) (Some (specifications v))
                    (Some (offers v)))
               (variants product))).

(** A matcher that knows exact matches only. *)
Definition exact_matches (word : string) (possibilities : list string)
  : list string :=
  firstn 1 (filter (String.eqb word) possibilities).

(** A catalog of three entries, two of them under the same name. *)
Definition sample_catalog : list Product :=
  [ product_without_offers;
    product_with_offers;
    mkProduct "Tablet Z" [] [] ].

(** * Properties *)

(** ** Binary64 comparisons *)

Module F64.

Lemma SFcompare_antisym a b c :
  SFcompare a b = Some c -> SFcompare b a = Some (CompOpp c).
Proof.
  destruct a as [sa|sa| |sa ma ea], b as [sb|sb| |sb mb eb]; simpl;
    try discriminate; intros [= <-];
    try (destruct sa; try destruct sb; reflexivity);
    try (destruct sb; reflexivity).
  destruct sa, sb; try reflexivity;
    rewrite (Z.compare_antisym ea eb);
    destruct (ea ?= eb)%Z; simpl; try reflexivity;
    rewrite !Pos.compare_cont_spec; simpl;
    rewrite (Pos.compare_antisym ma mb);
    destruct (ma ?= mb)%positive; reflexivity.
Qed.

Lemma SFleb_trans a b c :
  SFleb a b = true -> SFleb b c = true -> SFleb a c = true.
Proof.
  unfold SFleb.
  destruct a as [sa|sa| |sa ma ea], b as [sb|sb| |sb mb eb],
           c as [sc|sc| |sc mc ec];
    simpl; try discriminate; try reflexivity;
    repeat match goal with s : bool |- _ => destruct s end;
    simpl; try discriminate; try reflexivity;
    rewrite ?Pos.compare_cont_spec; simpl;
    repeat match goal with
    | |- context [(?x ?= ?y)%Z] => destruct (Z.compare_spec x y)
    | |- context [(?x ?= ?y)%positive] => destruct (Pos.compare_spec x y)
    end; simpl; try discriminate; try reflexivity; intros; subst; try lia.
Qed.

Lemma SFcompare_refl a : a <> S754_nan -> SFcompare a a = Some Eq.
Proof.
  destruct a as [s|s| |s m e]; simpl; intros H; try congruence.
  - destruct s; reflexivity.
  - rewrite Z.compare_refl, Pos.compare_cont_spec, Pos.compare_refl.
    destruct s; reflexivity.
Qed.

Lemma SFcompare_nan_free a b :
  a <> S754_nan -> b <> S754_nan -> SFcompare a b <> None.
Proof. destruct a, b; simpl; congruence. Qed.

Lemma is_nan_spec x : PrimFloat.is_nan x = true <-> Prim2SF x = S754_nan.
Proof.
  unfold PrimFloat.is_nan. rewrite FloatAxioms.eqb_spec. unfold SFeqb.
  destruct (Prim2SF x) as [s|s| |s m e] eqn:E.
  1,2,4: rewrite SFcompare_refl by discriminate; simpl; split; discriminate.
  simpl. split; reflexivity.
Qed.

Lemma not_nan_spec x : not_nan x <-> Prim2SF x <> S754_nan.
Proof.
  unfold not_nan. rewrite <- is_nan_spec.
  destruct (PrimFloat.is_nan x); split; congruence.
Qed.

Lemma leb_trans x y z :
  PrimFloat.leb x y = true -> PrimFloat.leb y z = true -> PrimFloat.leb x z = true.
Proof. rewrite !FloatAxioms.leb_spec. apply SFleb_trans. Qed.

Lemma ltb_negb_leb x y :
  not_nan x -> not_nan y -> PrimFloat.ltb x y = negb (PrimFloat.leb y x).
Proof.
  rewrite !not_nan_spec, FloatAxioms.ltb_spec, FloatAxioms.leb_spec. intros Hx Hy.
  unfold SFltb, SFleb.
  destruct (SFcompare (Prim2SF x) (Prim2SF y)) as [c|] eqn:E.
  - rewrite (SFcompare_antisym _ _ _ E). destruct c; reflexivity.
  - exfalso. exact (SFcompare_nan_free _ _ Hx Hy E).
Qed.

Lemma leb_total x y :
  not_nan x -> not_nan y -> PrimFloat.leb x y = true \/ PrimFloat.leb y x = true.
Proof.
  rewrite !not_nan_spec, !FloatAxioms.leb_spec. intros Hx Hy. unfold SFleb.
  destruct (SFcompare (Prim2SF x) (Prim2SF y)) as [c|] eqn:E.
  - rewrite (SFcompare_antisym _ _ _ E). destruct c; simpl; auto.
  - exfalso. exact (SFcompare_nan_free _ _ Hx Hy E).
Qed.

Lemma leb_refl x : not_nan x -> PrimFloat.leb x x = true.
Proof. intros H. destruct (leb_total x x H H); assumption. Qed.

Lemma ltb_nan_l x y : PrimFloat.is_nan x = true -> PrimFloat.ltb x y = false.
Proof.
  rewrite is_nan_spec, FloatAxioms.ltb_spec. intros ->. reflexivity.
Qed.

Lemma ltb_nan_r x y : PrimFloat.is_nan y = true -> PrimFloat.ltb x y = false.
Proof.
  rewrite is_nan_spec, FloatAxioms.ltb_spec. intros ->.
  unfold SFltb. destruct (Prim2SF x); reflexivity.
Qed.

Lemma leb_ltb_false x y : PrimFloat.leb x y = true -> PrimFloat.ltb y x = false.
Proof.
  rewrite FloatAxioms.leb_spec, FloatAxioms.ltb_spec. unfold SFleb, SFltb.
  destruct (SFcompare (Prim2SF x) (Prim2SF y)) as [c|] eqn:E; [|discriminate].
  rewrite (SFcompare_antisym _ _ _ E). destruct c; simpl; congruence.
Qed.

(** Two floats that differ under [==] are different values. *)
Lemma eqb_false_neq x y : PrimFloat.eqb x y = false -> not_nan x -> x <> y.
Proof.
  intros H Hx ->. unfold not_nan, PrimFloat.is_nan in Hx.
  rewrite H in Hx. discriminate.
Qed.

Lemma eqb_leb x y : PrimFloat.eqb x y = true -> PrimFloat.leb x y = true.
Proof.
  rewrite FloatAxioms.eqb_spec, FloatAxioms.leb_spec. unfold SFeqb, SFleb.
  destruct (SFcompare (Prim2SF x) (Prim2SF y)) as [[]|]; congruence.
Qed.

Lemma eqb_sym x y : PrimFloat.eqb x y = PrimFloat.eqb y x.
Proof.
  rewrite !FloatAxioms.eqb_spec. unfold SFeqb.
  destruct (SFcompare (Prim2SF x) (Prim2SF y)) as [c|] eqn:E.
  - rewrite (SFcompare_antisym _ _ _ E). destruct c; reflexivity.
  - destruct (SFcompare (Prim2SF y) (Prim2SF x)) as [c|] eqn:E';
      [|reflexivity].
    rewrite (SFcompare_antisym _ _ _ E') in E. discriminate.
Qed.

Lemma eqb_nan_r x y : PrimFloat.is_nan y = true -> PrimFloat.eqb x y = false.
Proof.
  rewrite is_nan_spec, FloatAxioms.eqb_spec. intros ->.
  unfold SFeqb. destruct (Prim2SF x); reflexivity.
Qed.

End F64.


(** ** Lists *)

Section ListFacts.

Context {A B : Type}.

Lemma nth_map_lt (f : A -> B) (l : list A) (i : nat) (d : A) (e : B) :
  i < length l -> nth i (map f l) e = f (nth i l d).
Proof.
  revert i. induction l as [|a l IH]; intros [|i] H; simpl in *; try lia.
  - reflexivity.
  - apply IH. lia.
Qed.

Lemma map_nth_seq (l : list A) (d : A) (m : nat) :
  m <= length l -> map (fun i => nth i l d) (seq 0 m) = firstn m l.
Proof.
  revert m. induction l as [|a l IH]; intros [|m] H; simpl in *; try lia;
    try reflexivity.
  f_equal. rewrite <- seq_shift, map_map. apply IH. lia.
Qed.

Lemma map_nth_seq_all (l : list A) (d : A) :
  map (fun i => nth i l d) (seq 0 (length l)) = l.
Proof. rewrite map_nth_seq by lia. apply firstn_all. Qed.

Lemma filter_split_perm (f : A -> bool) (l : list A) :
  Permutation (filter (fun x => negb (f x)) l ++ filter f l) l.
Proof.
  induction l as [|a l IH]; simpl; [constructor|].
  destruct (f a); simpl.
  - apply Permutation_sym, Permutation_cons_app, Permutation_sym, IH.
  - constructor. exact IH.
Qed.

Lemma StronglySorted_app (R : A -> A -> Prop) (l1 l2 : list A) :
  StronglySorted R l1 -> StronglySorted R l2 ->
  (forall x y, In x l1 -> In y l2 -> R x y) ->
  StronglySorted R (l1 ++ l2).
Proof.
  induction 1 as [|a l1 Hs IH Ha]; intros H2 Hx; simpl; [exact H2|].
  constructor.
  - apply IH; [exact H2|]. intros x y Hi Hj. apply Hx; [right|]; assumption.
  - apply Forall_app. split; [exact Ha|].
    apply Forall_forall. intros y Hy. apply Hx; [left; reflexivity|exact Hy].
Qed.

Lemma StronglySorted_rev (R : A -> A -> Prop) (l : list A) :
  StronglySorted R l -> StronglySorted (fun x y => R y x) (rev l).
Proof.
  induction 1 as [|a l Hs IH Ha]; simpl; [constructor|].
  apply StronglySorted_app; [exact IH|repeat constructor|].
  intros x y Hx [<-|[]]. rewrite Forall_forall in Ha.
  apply Ha, in_rev, Hx.
Qed.

Lemma In_firstn (l : list A) (m : nat) (x : A) :
  In x (firstn m l) -> In x l.
Proof.
  revert m. induction l as [|a l IH]; intros [|m]; simpl; try tauto.
  intros [H|H]; [left; exact H|right; exact (IH _ H)].
Qed.

Lemma StronglySorted_firstn (R : A -> A -> Prop) (l : list A) (m : nat) :
  StronglySorted R l -> StronglySorted R (firstn m l).
Proof.
  intros H. revert m. induction H as [|a l Hs IH Ha]; intros [|m]; simpl;
    try constructor.
  - apply IH.
  - rewrite Forall_forall in *. intros x Hx. apply Ha.
    eapply In_firstn; eassumption.
Qed.

Lemma StronglySorted_weaken (R S : A -> A -> Prop) (l : list A) :
  (forall x y, In x l -> In y l -> R x y -> S x y) ->
  StronglySorted R l -> StronglySorted S l.
Proof.
  intros HRS H. induction H as [|a l Hs IH Ha]; constructor.
  - apply IH. intros x y Hx Hy. apply HRS; right; assumption.
  - rewrite Forall_forall in *. intros x Hx.
    apply HRS; [left; reflexivity|right; exact Hx|apply Ha, Hx].
Qed.

Lemma StronglySorted_map (f : A -> B) (R : B -> B -> Prop) (l : list A) :
  StronglySorted (fun x y => R (f x) (f y)) l <-> StronglySorted R (map f l).
Proof.
  induction l as [|a l IH]; simpl; split; intros H; try constructor;
    inversion H; subst.
  - apply IH. assumption.
  - rewrite Forall_map. assumption.
  - apply IH. assumption.
  - rewrite <- Forall_map. assumption.
Qed.

End ListFacts.

(** ** Frames *)

Lemma lookup_assign_same name v cols : lookup name (assign name v cols) = Some v.
Proof.
  induction cols as [|[n c] cols IH]; simpl.
  - rewrite String.eqb_refl. reflexivity.
  - destruct (String.eqb n name) eqn:E; simpl; rewrite E; [reflexivity|exact IH].
Qed.

Lemma lookup_assign_other name other v cols :
  name <> other -> lookup name (assign other v cols) = lookup name cols.
Proof.
  intros Hne. induction cols as [|[n c] cols IH]; simpl.
  - destruct (String.eqb other name) eqn:E; [|reflexivity].
    apply String.eqb_eq in E. congruence.
  - destruct (String.eqb n other) eqn:E; simpl.
    + apply String.eqb_eq in E. subst n.
      destruct (String.eqb other name) eqn:E'; [|reflexivity].
      apply String.eqb_eq in E'. congruence.
    + rewrite IH. reflexivity.
Qed.

Lemma assign_unchanged name v cols :
  lookup name cols = Some v -> assign name v cols = cols.
Proof.
  induction cols as [|[n c] cols IH]; simpl; [discriminate|].
  destruct (String.eqb n name); intros H.
  - congruence.
  - rewrite IH by exact H. reflexivity.
Qed.

Lemma set_column_unchanged name v df :
  lookup name (columns df) = Some v -> set_column name v df = df.
Proof.
  intros H. unfold set_column. rewrite assign_unchanged by exact H.
  destruct df; reflexivity.
Qed.

Lemma lookup_set_same name v df :
  lookup name (columns (set_column name v df)) = Some v.
Proof. apply lookup_assign_same. Qed.

Lemma lookup_set_other name other v df :
  name <> other ->
  lookup name (columns (set_column other v df)) = lookup name (columns df).
Proof. apply lookup_assign_other. Qed.

Lemma assign_names_incl name v cols n :
  In n (map fst cols) -> In n (map fst (assign name v cols)).
Proof.
  induction cols as [|[m c] cols IH]; simpl; [tauto|].
  destruct (String.eqb m name); simpl; intros [H|H]; auto.
Qed.

Lemma values_CNum xs : values (map CNum xs) = Ok xs.
Proof. induction xs as [|x xs IH]; simpl; [|rewrite IH]; reflexivity. Qed.

Lemma values_length cells xs : values cells = Ok xs -> length xs = length cells.
Proof.
  revert xs. induction cells as [|c cells IH]; simpl; intros xs H.
  - injection H as <-. reflexivity.
  - destruct (float_of_cell c); simpl in H; [|discriminate].
    destruct (values cells); simpl in H; [|discriminate].
    injection H as <-. simpl. f_equal. apply IH. reflexivity.
Qed.

Lemma lookup_take_rows name positions df :
  lookup name (columns (take_rows positions df)) =
  option_map (fun c => map (fun i => nth i c CNone) positions)
             (lookup name (columns df)).
Proof.
  unfold take_rows. simpl. induction (columns df) as [|[n c] cols IH]; simpl.
  - reflexivity.
  - destruct (String.eqb n name); [reflexivity|exact IH].
Qed.

Lemma nrows_take_rows positions df :
  nrows (take_rows positions df) = length positions.
Proof. unfold nrows, take_rows. simpl. apply length_map. Qed.

Lemma take_rows_take_rows p q df :
  Forall (fun i => i < length p) q ->
  take_rows q (take_rows p df) = take_rows (map (fun i => nth i p 0) q) df.
Proof.
  intros Hq. unfold take_rows. simpl. f_equal.
  - rewrite map_map. apply map_ext_in. intros i Hi.
    rewrite Forall_forall in Hq.
    apply (nth_map_lt (fun i => nth i (index df) 0) p i 0 0), Hq, Hi.
  - rewrite !map_map. apply map_ext. intros [n c]. simpl. f_equal.
    rewrite map_map. apply map_ext_in. intros i Hi.
    rewrite Forall_forall in Hq.
    apply (nth_map_lt (fun i => nth i c CNone) p i 0 CNone), Hq, Hi.
Qed.

(** [head] on a frame of [n] rows, for a count [k >= 0]. *)
Lemma head_nonneg k df :
  (0 <= k)%Z ->
  head k df = take_rows (seq 0 (Nat.min (Z.to_nat k) (nrows df))) df.
Proof.
  intros Hk. unfold head.
  destruct (Z.ltb_spec k 0) as [H|H]; [lia|].
  do 2 f_equal. lia.
Qed.

(** ** The fallback formula *)

Lemma fill_value_not_nan d x : not_nan d -> not_nan (fill_value d x).
Proof.
  unfold fill_value, not_nan. intros Hd.
  destruct (PrimFloat.is_nan x) eqn:E; assumption.
Qed.

Lemma fill_value_fixed d xs :
  Forall not_nan xs -> map (fill_value d) xs = xs.
Proof.
  induction 1 as [|x xs Hx _ IH]; simpl; [reflexivity|].
  unfold fill_value at 1. rewrite Hx, IH. reflexivity.
Qed.

Lemma ltb_true_leb x y :
  not_nan x -> not_nan y -> PrimFloat.ltb x y = true -> PrimFloat.leb x y = true.
Proof.
  intros Hx Hy H. rewrite (F64.ltb_negb_leb x y Hx Hy) in H.
  destruct (F64.leb_total x y Hx Hy) as [L|L]; [exact L|].
  rewrite L in H. discriminate.
Qed.

Lemma ltb_false_leb x y :
  not_nan x -> not_nan y -> PrimFloat.ltb x y = false -> PrimFloat.leb y x = true.
Proof.
  intros Hx Hy H. rewrite (F64.ltb_negb_leb x y Hx Hy) in H.
  destruct (PrimFloat.leb y x); [reflexivity|discriminate].
Qed.

Lemma fold_nan_max xs :
  forall a, not_nan a -> Forall not_nan xs ->
    not_nan (fold_left nan_max xs a) /\
    (fold_left nan_max xs a = a \/ In (fold_left nan_max xs a) xs) /\
    PrimFloat.leb a (fold_left nan_max xs a) = true /\
    Forall (fun x => PrimFloat.leb x (fold_left nan_max xs a) = true) xs.
Proof.
  induction xs as [|x xs IH]; intros a Ha Hxs; simpl.
  - repeat split; auto using F64.leb_refl.
  - inversion Hxs as [|? ? Hx Hxs']; subst.
    assert (Hstep : nan_max a x = (if PrimFloat.ltb a x then x else a)).
    { unfold nan_max. rewrite Ha, Hx. reflexivity. }
    rewrite Hstep. destruct (PrimFloat.ltb a x) eqn:E.
    + destruct (IH x Hx Hxs') as (Hm & Hin & Hle & Hall).
      repeat split.
      * exact Hm.
      * right. destruct Hin as [->|Hin]; [left; reflexivity|right; exact Hin].
      * eapply F64.leb_trans; [|exact Hle]. apply ltb_true_leb; assumption.
      * constructor; assumption.
    + destruct (IH a Ha Hxs') as (Hm & Hin & Hle & Hall).
      repeat split.
      * exact Hm.
      * destruct Hin as [->|Hin]; [left; reflexivity|right; right; exact Hin].
      * exact Hle.
      * constructor; [|exact Hall].
        eapply F64.leb_trans; [|exact Hle]. apply ltb_false_leb; assumption.
Qed.

(** On a column without NaN, [Series.max()] is an element of the column that
    bounds every element. *)
Lemma series_max_spec xs :
  xs <> [] -> Forall not_nan xs ->
  In (series_max xs) xs /\
  Forall (fun x => PrimFloat.leb x (series_max xs) = true) xs.
Proof.
  destruct xs as [|x xs]; [congruence|]. intros _ H.
  inversion H as [|? ? Hx Hxs]; subst.
  unfold series_max. simpl.
  change (nan_max nan x) with x.
  destruct (fold_nan_max xs x Hx Hxs) as (_ & Hin & Hle & Hall).
  split.
  - destruct Hin as [->|Hin]; [left; reflexivity|right; exact Hin].
  - constructor; assumption.
Qed.

Lemma nth_series_add xs ys i :
  i < length xs -> i < length ys ->
  nth i (series_add xs ys) nan = (nth i xs nan + nth i ys nan)%float.
Proof.
  unfold series_add. revert ys i.
  induction xs as [|x xs IH]; intros [|y ys] [|i]; simpl; try lia.
  - reflexivity.
  - intros. apply IH; lia.
Qed.

Lemma length_series_add xs ys :
  length (series_add xs ys) = Nat.min (length xs) (length ys).
Proof. unfold series_add. rewrite length_map. apply length_combine. Qed.

Lemma length_fallback_formula P R D :
  length (fallback_formula P R D) =
  Nat.min (Nat.min (length P) (length R)) (length D).
Proof.
  unfold fallback_formula, rmul, rsub, series_div.
  rewrite !length_series_add, !length_map. reflexivity.
Qed.

(** Row by row, the fallback column is the weighted formula of the source. *)
Lemma fallback_formula_nth P R D i :
  i < length P -> i < length R -> i < length D ->
  nth i (fallback_formula P R D) nan =
  (0.4 * (1 - nth i P nan / (series_max P + 1e-6))
   + 0.3 * (nth i R nan / 5)
   + 0.3 * (1 - nth i D nan / (series_max D + 1e-6)))%float.
Proof.
  intros HP HR HD. unfold fallback_formula.
  rewrite !nth_series_add;
    rewrite ?length_series_add; unfold rmul, rsub, series_div;
    rewrite ?length_map; try lia.
  rewrite !(nth_map_lt _ _ i nan nan) by (rewrite ?length_map; lia).
  reflexivity.
Qed.

(** ** The two scoring branches *)

Section Scoring.

Variable coerce_object : cell -> Result float.

Lemma to_numeric_cells_CNum xs :
  to_numeric_cells coerce_object (map CNum xs) = Ok xs.
Proof. induction xs as [|x xs IH]; simpl; [|rewrite IH]; reflexivity. Qed.

Lemma to_numeric_cells_length cells xs :
  to_numeric_cells coerce_object cells = Ok xs -> length xs = length cells.
Proof.
  revert xs. induction cells as [|c cells IH]; simpl; intros xs H.
  - injection H as <-. reflexivity.
  - destruct (to_numeric_cell coerce_object c); simpl in H; [|discriminate].
    destruct (to_numeric_cells coerce_object cells); simpl in H; [|discriminate].
    injection H as <-. simpl. f_equal. apply IH. reflexivity.
Qed.

Lemma defaulted_length d cells xs :
  defaulted coerce_object d cells = Ok xs -> length xs = length cells.
Proof.
  unfold defaulted.
  destruct (to_numeric_cells coerce_object cells) as [ys|] eqn:E; simpl;
    [|discriminate].
  intros [= <-]. rewrite length_map. eapply to_numeric_cells_length, E.
Qed.

Lemma defaulted_not_nan d cells xs :
  not_nan d -> defaulted coerce_object d cells = Ok xs -> Forall not_nan xs.
Proof.
  unfold defaulted. intros Hd.
  destruct (to_numeric_cells coerce_object cells) as [ys|]; simpl;
    [|discriminate].
  intros [= <-]. apply Forall_map, Forall_forall. intros y _.
  apply fill_value_not_nan, Hd.
Qed.

Lemma defaulted_settled d xs :
  Forall not_nan xs -> defaulted coerce_object d (map CNum xs) = Ok xs.
Proof.
  intros H. unfold defaulted. rewrite to_numeric_cells_CNum. simpl.
  rewrite fill_value_fixed by exact H. reflexivity.
Qed.

(** One statement [df[name] = pd.to_numeric(df.get(name, d)).fillna(d)]:
    without the column [df.get] gives the bare default, [to_numeric] passes
    it through, and the number has no [fillna]. *)
Lemma fill_column_run name d df :
  fill_column coerce_object name d df =
  match lookup name (columns df) with
  | None => (Raise AttributeError, df)
  | Some cells =>
      match defaulted coerce_object d cells with
      | Ok xs => (Ok tt, set_column name (map CNum xs) df)
      | Raise e => (Raise e, df)
      end
  end.
Proof.
  unfold fill_column, bind, df_get, lift, to_numeric, defaulted, setitem.
  destruct (lookup name (columns df)) as [cells|]; simpl; [|reflexivity].
  destruct (to_numeric_cells coerce_object cells); reflexivity.
Qed.

Lemma getitem_CNum name xs df :
  lookup name (columns df) = Some (map CNum xs) ->
  getitem name df = (Ok xs, df).
Proof. intros H. unfold getitem. rewrite H, values_CNum. reflexivity. Qed.

Lemma score_fallback_eq df :
  score_fallback coerce_object df = fallback_outcome coerce_object df.
Proof.
  unfold score_fallback, fallback_outcome, bind.
  rewrite fill_column_run.
  destruct (lookup "price" (columns df)) as [cp|]; [|reflexivity].
  destruct (defaulted coerce_object 1 cp) as [P|]; [|reflexivity].
  rewrite fill_column_run, lookup_set_other by discriminate.
  destruct (lookup "rating" (columns df)) as [cr|]; [|reflexivity].
  destruct (defaulted coerce_object 0 cr) as [R|]; [|reflexivity].
  rewrite fill_column_run, !lookup_set_other by discriminate.
  destruct (lookup "delivery_in_days" (columns df)) as [cd|]; [|reflexivity].
  destruct (defaulted coerce_object 3 cd) as [D|]; [|reflexivity].
  rewrite (getitem_CNum "price" P)
    by (rewrite !lookup_set_other by discriminate; apply lookup_set_same).
  rewrite (getitem_CNum "rating" R)
    by (rewrite !lookup_set_other by discriminate; apply lookup_set_same).
  rewrite (getitem_CNum "delivery_in_days" D) by apply lookup_set_same.
  reflexivity.
Qed.

Lemma score_fallback_active g df :
  fallback_active g -> score coerce_object g df = fallback_outcome coerce_object df.
Proof.
  unfold score. intros [H|H]; rewrite H.
  - apply score_fallback_eq.
  - destruct (preproc g); apply score_fallback_eq.
Qed.

(** A batch the fallback can score ends with the four columns assigned. *)
Lemma fallback_outcome_scorable df cp cr cd P R D :
  lookup "price" (columns df) = Some cp ->
  lookup "rating" (columns df) = Some cr ->
  lookup "delivery_in_days" (columns df) = Some cd ->
  defaulted coerce_object 1 cp = Ok P ->
  defaulted coerce_object 0 cr = Ok R ->
  defaulted coerce_object 3 cd = Ok D ->
  fallback_outcome coerce_object df =
  (Ok tt,
   set_column "_pred_score" (map CNum (fallback_formula P R D))
     (set_column "delivery_in_days" (map CNum D)
        (set_column "rating" (map CNum R)
           (set_column "price" (map CNum P) df)))).
Proof.
  intros Hp Hr Hd HP HR HD. unfold fallback_outcome.
  rewrite Hp, HP, Hr, HR, Hd, HD. reflexivity.
Qed.

End Scoring.

(** ** The ranking half: [sort_values] and [head] *)

Section Ranking.

Variable argsort : list float -> list nat.
Hypothesis argsort_sorts : sorts_ascending argsort.

Let key (items : list float) (i : nat) : float := nth i items nan.
Let mask (items : list float) (i : nat) : bool := PrimFloat.is_nan (key items i).
Let kept (items : list float) : list nat :=
  rev (filter (fun i => negb (mask items i)) (seq 0 (length items))).
Let dropped (items : list float) : list nat :=
  filter (mask items) (seq 0 (length items)).

Lemma nargsort_unfold items :
  nargsort argsort items =
  (rev (map (fun j => nth j (kept items) 0)
          (argsort (map (key items) (kept items)))) ++ dropped items)%list.
Proof. reflexivity. Qed.

Lemma kept_not_nan items : Forall not_nan (map (key items) (kept items)).
Proof.
  apply Forall_map, Forall_forall. intros i Hi.
  unfold kept in Hi. apply in_rev, filter_In in Hi. destruct Hi as [_ Hi].
  unfold not_nan. unfold mask in Hi. destruct (PrimFloat.is_nan (key items i));
    [discriminate|reflexivity].
Qed.

Lemma argsort_in_range items j :
  In j (argsort (map (key items) (kept items))) -> j < length (kept items).
Proof.
  intros Hj.
  destruct (argsort_sorts _ (kept_not_nan items)) as [Hperm _].
  apply (Permutation_in _ Hperm), in_seq in Hj.
  rewrite length_map in Hj. lia.
Qed.

(** [nargsort] returns every position exactly once. *)
Lemma nargsort_perm items :
  Permutation (nargsort argsort items) (seq 0 (length items)).
Proof.
  rewrite nargsort_unfold.
  destruct (argsort_sorts _ (kept_not_nan items)) as [Hperm _].
  rewrite length_map in Hperm.
  eapply Permutation_trans; [|apply (filter_split_perm (mask items))].
  apply Permutation_app; [|reflexivity].
  eapply Permutation_trans; [apply Permutation_sym, Permutation_rev|].
  eapply Permutation_trans;
    [apply Permutation_map, Hperm|].
  rewrite map_nth_seq_all. unfold kept.
  apply Permutation_sym, Permutation_rev.
Qed.

Lemma nargsort_length items : length (nargsort argsort items) = length items.
Proof.
  rewrite (Permutation_length (nargsort_perm items)). apply length_seq.
Qed.

Lemma nargsort_in_range items i :
  In i (nargsort argsort items) -> i < length items.
Proof.
  intros Hi. apply (Permutation_in _ (nargsort_perm items)), in_seq in Hi. lia.
Qed.

Lemma sorted_keys_of_kept items :
  map (key items)
    (map (fun j => nth j (kept items) 0)
       (argsort (map (key items) (kept items)))) =
  map (fun j => nth j (map (key items) (kept items)) nan)
    (argsort (map (key items) (kept items))).
Proof.
  rewrite map_map. apply map_ext_in. intros j Hj.
  symmetry. apply nth_map_lt, argsort_in_range, Hj.
Qed.

(** Along the positions [nargsort] returns, no score exceeds an earlier one,
    and the NaN scores stand last. *)
Lemma nargsort_non_increasing items :
  non_increasing (map (key items) (nargsort argsort items)).
Proof.
  rewrite nargsort_unfold, map_app, map_rev, sorted_keys_of_kept.
  destruct (argsort_sorts _ (kept_not_nan items)) as [_ Hsorted].
  apply StronglySorted_app.
  - apply StronglySorted_rev in Hsorted.
    eapply StronglySorted_weaken; [|exact Hsorted].
    intros x y _ _ H. apply F64.leb_ltb_false, H.
  - apply StronglySorted_map.
    assert (H : Forall (fun i => mask items i = true) (dropped items)).
    { apply Forall_forall. intros i Hi. apply filter_In in Hi. apply Hi. }
    induction H as [|i l Hi Hl IH]; constructor; [exact IH|].
    apply Forall_forall. intros j Hj. rewrite Forall_forall in Hl.
    apply F64.ltb_nan_r, Hl, Hj.
  - intros x y _ Hy. apply in_map_iff in Hy. destruct Hy as (i & <- & Hi).
    apply filter_In in Hi. apply F64.ltb_nan_r, Hi.
Qed.

End Ranking.

(** ** The model branch *)

Lemma lookup_well_formed df name c :
  well_formed df -> lookup name (columns df) = Some c -> length c = nrows df.
Proof.
  unfold well_formed. induction (columns df) as [|[n c'] cols IH]; simpl;
    [discriminate|].
  intros H. inversion H as [|? ? Hc Hcols]; subst.
  destruct (String.eqb n name); [intros [= <-]; exact Hc|apply IH, Hcols].
Qed.

Lemma has_column_lookup name df :
  has_column name df = true <-> exists c, lookup name (columns df) = Some c.
Proof.
  unfold has_column. destruct (lookup name (columns df)) as [c|].
  - split; [eauto|reflexivity].
  - split; [discriminate|intros [c H]; discriminate].
Qed.

(** The loop over the feature names never raises; it keeps every column
    the frame had, and adds a NaN column for each feature it lacked. *)
Lemma add_missing_columns_run names :
  forall df, exists df',
    add_missing_columns names df = (Ok tt, df') /\
    index df' = index df /\
    forall n,
      lookup n (columns df') =
      match lookup n (columns df) with
      | Some c => Some c
      | None =>
          if existsb (String.eqb n) names
          then Some (repeat (CNum nan) (nrows df)) else None
      end.
Proof.
  induction names as [|col rest IH]; intros df.
  - exists df. repeat split. intros n. simpl.
    destruct (lookup n (columns df)); reflexivity.
  - simpl. unfold bind at 1. unfold bind at 1. unfold read.
    destruct (has_column col df) eqn:Hc.
    + unfold ret. destruct (IH df) as (df' & Hrun & Hidx & Hcols).
      exists df'. repeat split; try assumption.
      intros n. rewrite Hcols.
      destruct (lookup n (columns df)) as [c|] eqn:Hn; [reflexivity|].
      simpl. destruct (String.eqb n col) eqn:E; [|reflexivity].
      apply String.eqb_eq in E. subst n.
      apply has_column_lookup in Hc. destruct Hc as [c Hc]. congruence.
    + unfold setitem.
      destruct (IH (set_column col (repeat (CNum nan) (nrows df)) df))
        as (df' & Hrun & Hidx & Hcols).
      exists df'. repeat split; try assumption.
      intros n. rewrite Hcols. cbn [existsb].
      destruct (String.eqb n col) eqn:E.
      * apply String.eqb_eq in E. subst n. rewrite lookup_set_same.
        unfold has_column in Hc.
        destruct (lookup col (columns df)); [discriminate|reflexivity].
      * apply String.eqb_neq in E. rewrite lookup_set_other by exact E.
        reflexivity.
Qed.

Lemma select_all names cols (f : string -> list cell) :
  (forall n, In n names -> lookup n cols = Some (f n)) ->
  select names cols = Ok (map (fun n => (n, f n)) names).
Proof.
  induction names as [|n rest IH]; intros H; simpl; [reflexivity|].
  rewrite (H n) by (left; reflexivity).
  rewrite IH by (intros m Hm; apply H; right; exact Hm). reflexivity.
Qed.

Lemma lookup_map_pairs names (f : string -> list cell) n :
  In n names -> lookup n (map (fun m => (m, f m)) names) = Some (f n).
Proof.
  induction names as [|m rest IH]; simpl; [tauto|].
  destruct (String.eqb m n) eqn:E.
  - apply String.eqb_eq in E. subst m. reflexivity.
  - intros [H|H]; [subst m; rewrite String.eqb_refl in E; discriminate|].
    apply IH, H.
Qed.

Lemma existsb_eqb_In n names :
  In n names -> existsb (String.eqb n) names = true.
Proof.
  intros H. apply existsb_exists. exists n. split; [exact H|].
  apply String.eqb_refl.
Qed.

Lemma model_input_ok pre df :
  model_input pre df =
  Ok (mkDataFrame (index df)
        (map (fun n => (n, feature_column df n)) (feature_names_in_ pre))).
Proof.
  unfold model_input, getitem_columns.
  destruct (add_missing_columns_run (feature_names_in_ pre) df)
    as (df' & Hrun & Hidx & Hcols).
  rewrite Hrun. simpl. rewrite Hidx.
  rewrite (select_all _ _ (feature_column df)); [reflexivity|].
  intros n Hn. rewrite Hcols. unfold feature_column.
  destruct (lookup n (columns df)); [reflexivity|].
  rewrite existsb_eqb_In by exact Hn. reflexivity.
Qed.

Lemma score_model_run pre mdl df :
  score_model pre mdl df =
  let df1 := snd (add_missing_columns (feature_names_in_ pre) df) in
  match model_input pre df with
  | Raise e => (Raise e, df1)
  | Ok input =>
  match transform pre input with
  | Raise e => (Raise e, df1)
  | Ok X =>
  match predict mdl X with
  | Raise e => (Raise e, df1)
  | Ok preds =>
      if Nat.eqb (length preds) (nrows df)
      then (Ok tt, set_column "_pred_score" (map CNum preds) df1)
      else (Raise ValueError, df1)
  end end end.
Proof.
  unfold score_model, model_input, bind.
  destruct (add_missing_columns_run (feature_names_in_ pre) df)
    as (df' & Hrun & Hidx & Hcols).
  rewrite Hrun. simpl.
  destruct (rmap (mkDataFrame (index df'))
              (select (feature_names_in_ pre) (columns df'))) as [input|];
    [|reflexivity].
  destruct (transform pre input) as [X|]; [|reflexivity].
  destruct (predict mdl X) as [preds|]; [|reflexivity].
  unfold setitem_array, nrows. rewrite Hidx. reflexivity.
Qed.

(** ** Scoring, then ranking *)

Section TopK.

Variable argsort : list float -> list nat.
Variable coerce_object : cell -> Result float.

(** A batch the active strategy can score leaves a frame with one score per
    row, on the same row labels. *)
Lemma scorable_scored g df :
  well_formed df -> scorable coerce_object g df ->
  exists df' S,
    score coerce_object g df = (Ok tt, df') /\
    lookup "_pred_score" (columns df') = Some (map CNum S) /\
    length S = nrows df /\
    index df' = index df.
Proof.
  intros Hwf Hs.
  assert (Hfb : scorable_fallback coerce_object df ->
                exists df' S,
                  fallback_outcome coerce_object df = (Ok tt, df') /\
                  lookup "_pred_score" (columns df') = Some (map CNum S) /\
                  length S = nrows df /\ index df' = index df).
  { intros (cp & cr & cd & P & R & D & Hp & Hr & Hd & HP & HR & HD).
    eexists. exists (fallback_formula P R D). split.
    - eapply fallback_outcome_scorable; eassumption.
    - split; [apply lookup_set_same|]. split; [|reflexivity].
      rewrite length_fallback_formula.
      rewrite (defaulted_length _ _ _ _ HP), (defaulted_length _ _ _ _ HR),
        (defaulted_length _ _ _ _ HD).
      rewrite (lookup_well_formed _ _ _ Hwf Hp),
        (lookup_well_formed _ _ _ Hwf Hr), (lookup_well_formed _ _ _ Hwf Hd).
      lia. }
  unfold scorable in Hs. unfold score.
  destruct (preproc g) as [pre|]; [destruct (model g) as [mdl|]|].
  - destruct Hs as (input & X & preds & Hin & HX & Hp & Hlen).
    rewrite score_model_run, Hin, HX, Hp. simpl.
    apply Nat.eqb_eq in Hlen. rewrite Hlen.
    destruct (add_missing_columns_run (feature_names_in_ pre) df)
      as (df1 & Hrun & Hidx & _).
    rewrite Hrun. simpl. eexists. exists preds.
    split; [reflexivity|]. split; [apply lookup_set_same|].
    split; [apply Nat.eqb_eq, Hlen|exact Hidx].
  - rewrite score_fallback_eq. apply Hfb, Hs.
  - rewrite score_fallback_eq. apply Hfb, Hs.
Qed.

Lemma infer_topk_scored g k df df' S :
  score coerce_object g df = (Ok tt, df') ->
  lookup "_pred_score" (columns df') = Some (map CNum S) ->
  infer_topk argsort coerce_object g k df =
  (Ok (head k (take_rows (nargsort argsort S) df')), df').
Proof.
  intros Hs Hl. unfold infer_topk, bind. rewrite Hs.
  unfold read, lift, sort_values. rewrite Hl, values_CNum. reflexivity.
Qed.


Hypothesis argsort_sorts : sorts_ascending argsort.

(** The frame [infer_topk] returns, as positions of the scored frame. *)
Lemma head_of_sorted k df S :
  (0 <= k)%Z -> length S = nrows df ->
  head k (take_rows (nargsort argsort S) df) =
  take_rows (firstn (Nat.min (Z.to_nat k) (nrows df)) (nargsort argsort S)) df.
Proof.
  intros Hk Hlen. rewrite head_nonneg by exact Hk.
  rewrite nrows_take_rows, nargsort_length by exact argsort_sorts.
  rewrite Hlen.
  rewrite take_rows_take_rows.
  - rewrite map_nth_seq; [reflexivity|].
    rewrite nargsort_length by exact argsort_sorts. lia.
  - apply Forall_forall. intros i Hi. apply in_seq in Hi.
    rewrite nargsort_length by exact argsort_sorts. lia.
Qed.

Lemma firstn_nargsort_in_range m S :
  Forall (fun i => i < length S) (firstn m (nargsort argsort S)).
Proof.
  apply Forall_forall. intros i Hi. apply In_firstn in Hi.
  eapply nargsort_in_range; eassumption.
Qed.

End TopK.

(** ** The stable index sort meets the contract of [argsort] *)

Section StableSort.

Variable v : list float.

Let le_at (i j : nat) : Prop := PrimFloat.leb (nth i v nan) (nth j v nan) = true.
Let tie_lt (i j : nat) : Prop :=
  PrimFloat.eqb (nth i v nan) (nth j v nan) = true -> i < j.

Lemma insert_position_perm i l : Permutation (insert_position v i l) (i :: l).
Proof.
  induction l as [|j l IH]; simpl; [reflexivity|].
  destruct (PrimFloat.leb (nth i v nan) (nth j v nan)); [reflexivity|].
  eapply Permutation_trans; [apply perm_skip, IH|apply perm_swap].
Qed.

Lemma insert_position_sorted i l :
  not_nan (nth i v nan) -> Forall (fun j => not_nan (nth j v nan)) l ->
  StronglySorted le_at l -> StronglySorted le_at (insert_position v i l).
Proof.
  intros Hi Hl Hs. induction Hs as [|j l Hs IH Hj]; simpl.
  - repeat constructor.
  - inversion Hl as [|? ? Hnj Hl']; subst.
    destruct (PrimFloat.leb (nth i v nan) (nth j v nan)) eqn:E.
    + constructor; [constructor; assumption|].
      constructor; [exact E|].
      rewrite Forall_forall in *. intros x Hx.
      eapply F64.leb_trans; [exact E|apply Hj, Hx].
    + constructor; [apply IH, Hl'|].
      apply Forall_forall. intros x Hx.
      apply (Permutation_in _ (insert_position_perm i l)) in Hx.
      destruct Hx as [<-|Hx].
      * destruct (F64.leb_total _ _ Hi Hnj) as [L|L]; [congruence|exact L].
      * rewrite Forall_forall in Hj. apply Hj, Hx.
Qed.

Lemma insert_position_stable i l :
  Forall (fun j => i < j) l ->
  StronglySorted tie_lt l -> StronglySorted tie_lt (insert_position v i l).
Proof.
  intros Hlt Hs. induction Hs as [|j l Hs IH Hj]; simpl.
  - repeat constructor.
  - inversion Hlt as [|? ? Hij Hlt']; subst.
    destruct (PrimFloat.leb (nth i v nan) (nth j v nan)) eqn:E.
    + constructor; [constructor; assumption|].
      apply Forall_forall. intros x Hx _. rewrite Forall_forall in Hlt.
      apply Hlt, Hx.
    + constructor; [apply IH, Hlt'|].
      apply Forall_forall. intros x Hx.
      apply (Permutation_in _ (insert_position_perm i l)) in Hx.
      destruct Hx as [<-|Hx].
      * intros Heq. rewrite F64.eqb_sym in Heq.
        apply F64.eqb_leb in Heq. congruence.
      * rewrite Forall_forall in Hj. apply Hj, Hx.
Qed.

Lemma sort_positions a n :
  Forall not_nan v -> a + n <= length v ->
  let out := fold_right (insert_position v) [] (seq a n) in
  Permutation out (seq a n) /\ StronglySorted le_at out /\
  StronglySorted tie_lt out.
Proof.
  intros Hv. revert a. induction n as [|n IH]; intros a Hn; simpl.
  - repeat split; constructor.
  - destruct (IH (S a)) as (Hp & Hs & Ht); [lia|].
    assert (Hnn : forall j, j < length v -> not_nan (nth j v nan)).
    { intros j Hj. rewrite Forall_forall in Hv. apply Hv, nth_In, Hj. }
    repeat split.
    + eapply Permutation_trans; [apply insert_position_perm|].
      apply perm_skip, Hp.
    + apply insert_position_sorted; [apply Hnn; lia| |exact Hs].
      apply Forall_forall. intros j Hj.
      apply (Permutation_in _ Hp), in_seq in Hj. apply Hnn. lia.
    + apply insert_position_stable; [|exact Ht].
      apply Forall_forall. intros j Hj.
      apply (Permutation_in _ Hp), in_seq in Hj. lia.
Qed.

End StableSort.

Lemma argsort_stable_sorts : sorts_ascending argsort_stable.
Proof.
  intros v Hv. unfold argsort_stable.
  destruct (sort_positions v 0 (length v) Hv) as (Hp & Hs & _); [lia|].
  split; [exact Hp|]. apply StronglySorted_map. exact Hs.
Qed.

Lemma argsort_stable_stable v :
  Forall not_nan v -> stable_on argsort_stable v.
Proof.
  intros Hv. unfold stable_on, argsort_stable.
  destruct (sort_positions v 0 (length v) Hv) as (_ & _ & Ht); [lia|].
  exact Ht.
Qed.

(** ** Frames built from feature rows *)

Lemma records_index rows :
  index (DataFrame_of_records rows) = seq 0 (length rows).
Proof. destruct rows; reflexivity. Qed.

Lemma records_nrows rows : nrows (DataFrame_of_records rows) = length rows.
Proof. unfold nrows. rewrite records_index. apply length_seq. Qed.

Lemma records_well_formed rows : well_formed (DataFrame_of_records rows).
Proof.
  unfold well_formed. rewrite records_nrows.
  destruct rows as [|r rows]; [constructor|].
  unfold DataFrame_of_records, columns.
  repeat (constructor; [apply length_map|]). constructor.
Qed.

Lemma records_price rows :
  rows <> [] ->
  lookup "price" (columns (DataFrame_of_records rows)) =
  Some (map row_price rows).
Proof. destruct rows; [congruence|reflexivity]. Qed.

Lemma records_rating rows :
  rows <> [] ->
  lookup "rating" (columns (DataFrame_of_records rows)) =
  Some (map row_rating rows).
Proof. destruct rows; [congruence|reflexivity]. Qed.

Lemma records_delivery rows :
  rows <> [] ->
  lookup "delivery_in_days" (columns (DataFrame_of_records rows)) =
  Some (map row_delivery_in_days rows).
Proof. destruct rows; [congruence|reflexivity]. Qed.

Lemma records_no_score rows :
  lookup "_pred_score" (columns (DataFrame_of_records rows)) = None.
Proof. destruct rows; reflexivity. Qed.

Lemma not_nan_1 : not_nan 1.
Proof. reflexivity. Qed.

Lemma not_nan_0 : not_nan 0.
Proof. reflexivity. Qed.

Lemma not_nan_3 : not_nan 3.
Proof. reflexivity. Qed.

(** ** The claims *)

(** C1.  Under the fallback heuristic every row of a non-empty batch is
    scored [0.4 * (1 - price / (max_price + 1e-6)) + 0.3 * (rating / 5)
    + 0.3 * (1 - delivery / (max_delivery + 1e-6))], where [P], [R] and [D]
    are the defaulted price, rating and delivery columns and the two maxima
    are elements of [P] and [D] that bound every element. *)
Theorem fallback_score_formula :
  forall (argsort : list float -> list nat)
         (coerce_object : cell -> Result float)
         (g : Globals) (k : Z) (rows : list FeatureRow) (P R D : list float),
    fallback_active g ->
    rows <> [] ->
    defaulted coerce_object 1 (map row_price rows) = Ok P ->
    defaulted coerce_object 0 (map row_rating rows) = Ok R ->
    defaulted coerce_object 3 (map row_delivery_in_days rows) = Ok D ->
    exists topk df' scores,
      infer_topk argsort coerce_object g k (DataFrame_of_records rows)
        = (Ok topk, df') /\
      scores_of df' = Ok scores /\
      length scores = length rows /\
      In (series_max P) P /\
      Forall (fun p => PrimFloat.leb p (series_max P) = true) P /\
      In (series_max D) D /\
      Forall (fun d => PrimFloat.leb d (series_max D) = true) D /\
      forall i, i < length rows ->
        nth i scores nan =
        (0.4 * (1 - nth i P nan / (series_max P + 1e-6))
         + 0.3 * (nth i R nan / 5)
         + 0.3 * (1 - nth i D nan / (series_max D + 1e-6)))%float.
Proof.
  intros argsort coerce_object g k rows P R D Hg Hne HP HR HD.
  pose proof (defaulted_length _ _ _ _ HP) as LP.
  pose proof (defaulted_length _ _ _ _ HR) as LR.
  pose proof (defaulted_length _ _ _ _ HD) as LD.
  rewrite length_map in LP, LR, LD.
  set (df := DataFrame_of_records rows).
  assert (Hrun : score coerce_object g df =
                 (Ok tt,
                  set_column "_pred_score" (map CNum (fallback_formula P R D))
                    (set_column "delivery_in_days" (map CNum D)
                       (set_column "rating" (map CNum R)
                          (set_column "price" (map CNum P) df))))).
  { rewrite score_fallback_active by exact Hg.
    eapply fallback_outcome_scorable; try eassumption;
      [apply records_price|apply records_rating|apply records_delivery];
      exact Hne. }
  eexists. eexists. exists (fallback_formula P R D).
  split; [eapply infer_topk_scored; [exact Hrun|apply lookup_set_same]|].
  split.
  { unfold scores_of, getitem. rewrite lookup_set_same, values_CNum.
    reflexivity. }
  split; [rewrite length_fallback_formula; lia|].
  assert (HPne : P <> []) by (destruct P, rows; simpl in *; congruence).
  assert (HDne : D <> []) by (destruct D, rows; simpl in *; congruence).
  destruct (series_max_spec P HPne (defaulted_not_nan _ _ _ _ not_nan_1 HP))
    as [HinP HmaxP].
  destruct (series_max_spec D HDne (defaulted_not_nan _ _ _ _ not_nan_3 HD))
    as [HinD HmaxD].
  repeat (split; [assumption|]).
  intros i Hi. apply fallback_formula_nth; lia.
Qed.

Lemma fallback_score_formula_witness :
  exists topk df' scores,
    infer_topk argsort_stable rejects_objects no_artifact 3
      (DataFrame_of_records example_offers) = (Ok topk, df') /\
    scores_of df' = Ok scores /\
    length scores = length example_offers /\
    In (series_max [1000; 500]%float) [1000; 500]%float /\
    Forall (fun p => PrimFloat.leb p (series_max [1000; 500]%float) = true)
      [1000; 500]%float /\
    In (series_max [2; 5]%float) [2; 5]%float /\
    Forall (fun d => PrimFloat.leb d (series_max [2; 5]%float) = true) [2; 5]%float /\
    forall i, i < length example_offers ->
      nth i scores nan =
      (0.4 * (1 - nth i [1000; 500] nan / (series_max [1000; 500] + 1e-6))
       + 0.3 * (nth i [4.5; 3] nan / 5)
       + 0.3 * (1 - nth i [2; 5] nan / (series_max [2; 5] + 1e-6)))%float.
Proof.
  apply (fallback_score_formula argsort_stable rejects_objects no_artifact 3
           example_offers [1000; 500]%float [4.5; 3]%float [2; 5]%float).
  - left. reflexivity.
  - discriminate.
  - reflexivity.
  - reflexivity.
  - reflexivity.
Defined.



(** ** Stability of the descending sort *)

Lemma StronglySorted_seq a n : StronglySorted lt (seq a n).
Proof.
  revert a. induction n as [|n IH]; intros a; simpl; constructor.
  - apply IH.
  - apply Forall_forall. intros x Hx. apply in_seq in Hx. lia.
Qed.

Lemma StronglySorted_filter {A : Type} (R : A -> A -> Prop) (f : A -> bool) l :
  StronglySorted R l -> StronglySorted R (filter f l).
Proof.
  induction 1 as [|a l Hs IH Ha]; simpl; [constructor|].
  destruct (f a); [|exact IH].
  constructor; [exact IH|].
  rewrite Forall_forall in *. intros x Hx. apply filter_In in Hx.
  apply Ha, Hx.
Qed.

Lemma StronglySorted_nth {A : Type} (R : A -> A -> Prop) l (d : A) :
  StronglySorted R l ->
  forall a b, a < b -> b < length l -> R (nth a l d) (nth b l d).
Proof.
  induction 1 as [|x l Hs IH Hx]; intros a b Hab Hb; simpl in *; [lia|].
  destruct b as [|b]; [lia|]. destruct a as [|a].
  - rewrite Forall_forall in Hx. apply Hx, nth_In. lia.
  - apply IH; lia.
Qed.

Lemma StronglySorted_app_cross {A : Type} (R : A -> A -> Prop) l1 l2 :
  StronglySorted R (l1 ++ l2) ->
  forall x y, In x l1 -> In y l2 -> R x y.
Proof.
  induction l1 as [|a l1 IH]; simpl; intros H x y Hx Hy; [contradiction|].
  inversion H as [|? ? Hs Ha]; subst. destruct Hx as [<-|Hx].
  - rewrite Forall_forall in Ha. apply Ha, in_or_app. right. exact Hy.
  - apply IH; assumption.
Qed.

Section Stability.

Variable argsort : list float -> list nat.
Hypothesis argsort_sorts : sorts_ascending argsort.

Let key (items : list float) (i : nat) : float := nth i items nan.
Let kept (items : list float) : list nat :=
  rev (filter (fun i => negb (PrimFloat.is_nan (key items i)))
         (seq 0 (length items))).
Let dropped (items : list float) : list nat :=
  filter (fun i => PrimFloat.is_nan (key items i)) (seq 0 (length items)).
Let tie_lt (items : list float) (i j : nat) : Prop :=
  PrimFloat.eqb (key items i) (key items j) = true -> i < j.

Lemma kept_descends items : StronglySorted (fun a b => b < a) (kept items).
Proof.
  unfold kept. apply StronglySorted_rev, StronglySorted_filter.
  apply StronglySorted_seq.
Qed.

(** pandas reverses before and after the index sort, so an index sort that
    is stable on the array it is handed gives a stable descending order. *)
Lemma nargsort_stable items :
  stable_on argsort (non_nans items) ->
  StronglySorted (tie_lt items) (nargsort argsort items).
Proof.
  intros Hst.
  change (nargsort argsort items)
    with (rev (map (fun j => nth j (kept items) 0)
                 (argsort (map (key items) (kept items))))
          ++ dropped items)%list.
  change (non_nans items) with (map (key items) (kept items)) in Hst.
  unfold stable_on in Hst.
  apply StronglySorted_app.
  - apply StronglySorted_rev with
      (R := fun x y => PrimFloat.eqb (key items y) (key items x) = true -> y < x)
      (l := map (fun j => nth j (kept items) 0)
              (argsort (map (key items) (kept items)))).
    apply StronglySorted_map.
    eapply StronglySorted_weaken; [|exact Hst].
    intros a b Ha Hb Hab Heq.
    pose proof (argsort_in_range argsort argsort_sorts items a Ha) as La.
    pose proof (argsort_in_range argsort argsort_sorts items b Hb) as Lb.
    change (a < length (kept items)) in La.
    change (b < length (kept items)) in Lb.
    apply (StronglySorted_nth _ _ 0 (kept_descends items)); [|exact Lb].
    apply Hab. rewrite F64.eqb_sym.
    rewrite !(nth_map_lt (key items) (kept items) _ 0 nan) by assumption.
    exact Heq.
  - assert (H : Forall (fun i => PrimFloat.is_nan (key items i) = true)
                  (dropped items)).
    { apply Forall_forall. intros i Hi. apply filter_In in Hi. apply Hi. }
    induction H as [|i l Hi Hl IH]; constructor; [exact IH|].
    apply Forall_forall. intros j Hj Heq. rewrite Forall_forall in Hl.
    rewrite (F64.eqb_nan_r _ _ (Hl j Hj)) in Heq. discriminate.
  - intros x y _ Hy Heq. apply filter_In in Hy.
    rewrite (F64.eqb_nan_r _ _ (proj2 Hy)) in Heq. discriminate.
Qed.

(** The first [m] positions of a stable descending order: the ties among
    them, and against the positions cut off, are in input order. *)
Lemma firstn_nargsort_ties items m :
  stable_on argsort (non_nans items) ->
  ties_in_input_order items (firstn m (nargsort argsort items)).
Proof.
  intros Hst. pose proof (nargsort_stable items Hst) as Hs.
  split.
  - apply StronglySorted_firstn. exact Hs.
  - intros i j Hi Hj Hout.
    assert (Hin : In j (nargsort argsort items)).
    { apply (Permutation_in _
               (Permutation_sym (nargsort_perm argsort argsort_sorts items))).
      apply in_seq. lia. }
    rewrite <- (firstn_skipn m (nargsort argsort items)) in Hin, Hs.
    apply in_app_or in Hin. destruct Hin as [Hin|Hin]; [contradiction|].
    exact (StronglySorted_app_cross _ _ _ Hs i j Hi Hin).
Qed.

End Stability.

Lemma non_nans_not_nan items : Forall not_nan (non_nans items).
Proof.
  unfold non_nans. apply Forall_map, Forall_forall. intros i Hi.
  apply in_rev, filter_In in Hi. destruct Hi as [_ Hi]. unfold not_nan.
  destruct (PrimFloat.is_nan (nth i items nan)); [discriminate|reflexivity].
Qed.

(** C3, as the code has it.  [sort_values] is called with pandas' default
    [kind="quicksort"], so the order of equal scores is the order numpy's
    index sort leaves them in.  For a batch on whose scores that index sort
    is stable, the rows of a frame labelled [0 .. n-1] that have equal
    scores are returned in their input order, and of the rows tied at the
    cut the earliest are returned. *)
Theorem ties_keep_input_order_where_argsort_is_stable :
  forall (argsort : list float -> list nat)
         (coerce_object : cell -> Result float)
         (g : Globals) (k : Z) (df : DataFrame) (scores : list float),
    sorts_ascending argsort ->
    well_formed df ->
    index df = seq 0 (nrows df) ->
    scorable coerce_object g df ->
    (0 <= k)%Z ->
    scores_of (snd (infer_topk argsort coerce_object g k df)) = Ok scores ->
    stable_on argsort (non_nans scores) ->
    exists topk df',
      infer_topk argsort coerce_object g k df = (Ok topk, df') /\
      ties_in_input_order scores (index topk).
Proof.
  intros argsort coerce_object g k df scores Hsort Hwf Hindex Hsc Hk Hscores
    Hstable.
  destruct (scorable_scored coerce_object g df Hwf Hsc)
    as (df' & S & Hrun & Hl & Hlen & Hidx).
  assert (Hn : nrows df' = nrows df) by (unfold nrows; rewrite Hidx; reflexivity).
  pose proof (infer_topk_scored argsort coerce_object g k df df' S Hrun Hl)
    as Htop.
  rewrite Htop in Hscores. cbn [snd] in Hscores.
  assert (HS : scores = S).
  { unfold scores_of, getitem in Hscores.
    rewrite Hl, values_CNum in Hscores. cbn [fst] in Hscores.
    congruence. }
  subst scores.
  set (positions :=
         firstn (Nat.min (Z.to_nat k) (nrows df)) (nargsort argsort S)).
  assert (Hrange : Forall (fun i => i < length S) positions)
    by (apply firstn_nargsort_in_range, Hsort).
  exists (take_rows positions df'), df'.
  split.
  { rewrite Htop.
    rewrite head_of_sorted by (assumption || lia). rewrite Hn. reflexivity. }
  assert (Hlabels : index (take_rows positions df') = positions).
  { unfold take_rows. simpl. rewrite Hidx, Hindex.
    rewrite <- (map_id positions) at 2. apply map_ext_in. intros i Hi.
    rewrite Forall_forall in Hrange. apply seq_nth.
    rewrite <- Hlen. apply Hrange, Hi. }
  rewrite Hlabels.
  apply (firstn_nargsort_ties argsort Hsort S _ Hstable).
Qed.

Lemma ties_keep_input_order_witness :
  exists scores topk df',
    scores_of (snd (infer_topk argsort_stable rejects_objects no_artifact 3
                      (DataFrame_of_records paired_offers))) = Ok scores /\
    infer_topk argsort_stable rejects_objects no_artifact 3
      (DataFrame_of_records paired_offers) = (Ok topk, df') /\
    ties_in_input_order scores (index topk).
Proof.
  pose (scores :=
          match
            scores_of (snd (infer_topk argsort_stable rejects_objects
                              no_artifact 3
                              (DataFrame_of_records paired_offers)))
          with
          | Ok found => found
          | Raise _ => []
          end).
  assert (Hscores :
            scores_of (snd (infer_topk argsort_stable rejects_objects
                              no_artifact 3
                              (DataFrame_of_records paired_offers)))
            = Ok scores) by reflexivity.
  destruct (ties_keep_input_order_where_argsort_is_stable argsort_stable
              rejects_objects no_artifact 3
              (DataFrame_of_records paired_offers) scores)
    as (topk & df' & Hrun & Hties).
  - exact argsort_stable_sorts.
  - apply records_well_formed.
  - reflexivity.
  - exists (map row_price paired_offers), (map row_rating paired_offers),
      (map row_delivery_in_days paired_offers).
    eexists. eexists. eexists.
    repeat split; reflexivity.
  - lia.
  - exact Hscores.
  - apply argsort_stable_stable, non_nans_not_nan.
  - exists scores, topk, df'. auto.
Defined.

Section UnstableSort.

Variable v : list float.

Let le_at (i j : nat) : Prop := PrimFloat.leb (nth i v nan) (nth j v nan) = true.

Lemma insert_behind_ties_perm i l :
  Permutation (insert_behind_ties v i l) (i :: l).
Proof.
  induction l as [|j l IH]; simpl; [reflexivity|].
  destruct (PrimFloat.ltb (nth i v nan) (nth j v nan)); [reflexivity|].
  eapply Permutation_trans; [apply perm_skip, IH|apply perm_swap].
Qed.

Lemma insert_behind_ties_sorted i l :
  not_nan (nth i v nan) -> Forall (fun j => not_nan (nth j v nan)) l ->
  StronglySorted le_at l -> StronglySorted le_at (insert_behind_ties v i l).
Proof.
  intros Hi Hl Hs. induction Hs as [|j l Hs IH Hj]; simpl.
  - repeat constructor.
  - inversion Hl as [|? ? Hnj Hl']; subst.
    destruct (PrimFloat.ltb (nth i v nan) (nth j v nan)) eqn:E.
    + assert (L : le_at i j) by (apply ltb_true_leb; assumption).
      constructor; [constructor; assumption|].
      constructor; [exact L|].
      rewrite Forall_forall in *. intros x Hx.
      eapply F64.leb_trans; [exact L|apply Hj, Hx].
    + constructor; [apply IH, Hl'|].
      apply Forall_forall. intros x Hx.
      apply (Permutation_in _ (insert_behind_ties_perm i l)) in Hx.
      destruct Hx as [<-|Hx].
      * apply ltb_false_leb; assumption.
      * rewrite Forall_forall in Hj. apply Hj, Hx.
Qed.

End UnstableSort.

Lemma argsort_unstable_sorts : sorts_ascending argsort_unstable.
Proof.
  intros v Hv. unfold argsort_unstable.
  assert (Hnn : forall j, j < length v -> not_nan (nth j v nan)).
  { intros j Hj. rewrite Forall_forall in Hv. apply Hv, nth_In, Hj. }
  assert (H : forall n a, a + n <= length v ->
            let out := fold_right (insert_behind_ties v) [] (seq a n) in
            Permutation out (seq a n) /\
            StronglySorted
              (fun i j => PrimFloat.leb (nth i v nan) (nth j v nan) = true)
              out).
  { induction n as [|n IH]; intros a Hn; simpl.
    - split; constructor.
    - destruct (IH (S a)) as (Hp & Hs); [lia|]. split.
      + eapply Permutation_trans; [apply insert_behind_ties_perm|].
        apply perm_skip, Hp.
      + apply insert_behind_ties_sorted; [apply Hnn; lia| |exact Hs].
        apply Forall_forall. intros j Hj.
        apply (Permutation_in _ Hp), in_seq in Hj. apply Hnn. lia. }
  destruct (H (length v) 0) as (Hp & Hs); [lia|].
  split; [exact Hp|]. apply StronglySorted_map. exact Hs.
Qed.

(** C3, as stated, fails: nothing in the code asks for a stable sort.  With
    an index sort that meets numpy's contract for [kind="quicksort"] and
    leaves equal values in decreasing position, the fallback ranking of
    [paired_offers] (rows 2 and 3 share the best score, rows 0 and 1 the
    other) returns row 3 before row 2, and then row 1 although row 0 has the
    same score. *)
Lemma unstable_argsort_reorders_equal_scores :
  sorts_ascending argsort_unstable /\
  exists topk df' scores,
    infer_topk argsort_unstable rejects_objects no_artifact 3
      (DataFrame_of_records paired_offers) = (Ok topk, df') /\
    scores_of df' = Ok scores /\
    index topk = [3; 2; 1] /\
    PrimFloat.eqb (nth 3 scores nan) (nth 2 scores nan) = true /\
    PrimFloat.eqb (nth 1 scores nan) (nth 0 scores nan) = true /\
    ~ ties_in_input_order scores (index topk).
Proof.
  split; [exact argsort_unstable_sorts|].
  set (run := infer_topk argsort_unstable rejects_objects no_artifact 3
                (DataFrame_of_records paired_offers)).
  vm_compute in run.
  eexists. eexists. eexists.
  split; [subst run; reflexivity|].
  split; [vm_compute; reflexivity|].
  split; [reflexivity|].
  split; [vm_compute; reflexivity|].
  split; [vm_compute; reflexivity|].
  intros [Hsorted _].
  cbn [index] in Hsorted.
  inversion Hsorted as [|a l _ Hall]; subst.
  inversion Hall as [|b l' Hab _]; subst.
  assert (Hlt : 3 < 2) by (apply Hab; vm_compute; reflexivity).
  lia.
Qed.

(** ** The fallback branch on a batch of feature rows *)

Section FallbackOnRecords.

Variable argsort : list float -> list nat.
Variable coerce_object : cell -> Result float.

Lemma infer_topk_state g k df :
  snd (infer_topk argsort coerce_object g k df) = snd (score coerce_object g df).
Proof.
  unfold infer_topk, bind.
  destruct (score coerce_object g df) as [[[]|e] df']; reflexivity.
Qed.

Lemma infer_topk_raise g k df e df' :
  score coerce_object g df = (Raise e, df') ->
  infer_topk argsort coerce_object g k df = (Raise e, df').
Proof. intros H. unfold infer_topk, bind. rewrite H. reflexivity. Qed.

(** Where the fallback run of a non-empty batch stops, and what it leaves. *)
Lemma infer_topk_records g k rows :
  fallback_active g -> rows <> [] ->
  let df := DataFrame_of_records rows in
  infer_topk argsort coerce_object g k df =
  match defaulted coerce_object 1 (map row_price rows) with
  | Raise e => (Raise e, df)
  | Ok P =>
  match defaulted coerce_object 0 (map row_rating rows) with
  | Raise e => (Raise e, set_column "price" (map CNum P) df)
  | Ok R =>
  match defaulted coerce_object 3 (map row_delivery_in_days rows) with
  | Raise e =>
      (Raise e,
       set_column "rating" (map CNum R) (set_column "price" (map CNum P) df))
  | Ok D =>
      (Ok (head k (take_rows (nargsort argsort (fallback_formula P R D))
                     (scored_records rows P R D))),
       scored_records rows P R D)
  end end end.
Proof.
  intros Hg Hne df.
  assert (Hscore : score coerce_object g df = fallback_outcome coerce_object df)
    by (apply score_fallback_active, Hg).
  unfold fallback_outcome in Hscore. fold df.
  subst df.
  rewrite (records_price rows Hne), (records_rating rows Hne),
    (records_delivery rows Hne) in Hscore.
  destruct (defaulted coerce_object 1 (map row_price rows)) as [P|e];
    [|apply infer_topk_raise, Hscore].
  destruct (defaulted coerce_object 0 (map row_rating rows)) as [R|e];
    [|apply infer_topk_raise, Hscore].
  destruct (defaulted coerce_object 3 (map row_delivery_in_days rows)) as [D|e];
    [|apply infer_topk_raise, Hscore].
  assert (Hfinal :
            set_column "_pred_score" (map CNum (fallback_formula P R D))
              (set_column "delivery_in_days" (map CNum D)
                 (set_column "rating" (map CNum R)
                    (set_column "price" (map CNum P)
                       (DataFrame_of_records rows))))
            = scored_records rows P R D).
  { destruct rows; [congruence|reflexivity]. }
  cbv zeta in Hscore. rewrite Hfinal in Hscore.
  apply (infer_topk_scored argsort coerce_object g k _ _
           (fallback_formula P R D) Hscore).
  reflexivity.
Qed.

End FallbackOnRecords.

(** C4.  The fallback score is relative to the batch: the offer [A] at
    price 500 scores differently alone than next to an offer [B] at price
    1000. *)
Theorem fallback_score_is_batch_relative :
  forall (argsort : list float -> list nat)
         (coerce_object : cell -> Result float) (k : Z),
  exists (A B : FeatureRow) (alone together : list float),
    row_price B <> row_price A /\
    scores_of (snd (infer_topk argsort coerce_object no_artifact k
                      (DataFrame_of_records [A]))) = Ok alone /\
    scores_of (snd (infer_topk argsort coerce_object no_artifact k
                      (DataFrame_of_records [A; B]))) = Ok together /\
    nth 0 together nan <> nth 0 alone nan.
Proof.
  intros argsort coerce_object k.
  exists (sample_offer (CNum 500) (CNum 3) (CNum 5)),
         (sample_offer (CNum 1000) (CNum 4.5) (CNum 2)).
  rewrite !infer_topk_state.
  eexists. eexists.
  split.
  { simpl. intros H.
    apply (f_equal (fun c => match c with
                             | CNum x => PrimFloat.eqb x 500
                             | _ => true
                             end)) in H.
    vm_compute in H. discriminate H. }
  split; [vm_compute; reflexivity|].
  split; [vm_compute; reflexivity|].
  simpl. apply F64.eqb_false_neq; reflexivity.
Qed.

(** ** Replacing one field of one row *)

Lemma length_update_row i f rows : length (update_row i f rows) = length rows.
Proof.
  revert i. induction rows as [|r rows IH]; intros [|i]; simpl;
    try reflexivity.
  rewrite IH. reflexivity.
Qed.

Lemma map_update_row_other (proj : FeatureRow -> cell) f i rows :
  (forall r, proj (f r) = proj r) ->
  map proj (update_row i f rows) = map proj rows.
Proof.
  intros H. revert i. induction rows as [|r rows IH]; intros [|i]; simpl;
    try reflexivity.
  - rewrite H. reflexivity.
  - rewrite IH. reflexivity.
Qed.

Section Defaults.

Variable argsort : list float -> list nat.
Variable coerce_object : cell -> Result float.

Lemma to_numeric_absent c :
  absent c = true ->
  exists x, to_numeric_cell coerce_object c = Ok x /\ PrimFloat.is_nan x = true.
Proof.
  destruct c as [|x| | |]; simpl; try discriminate.
  - intros _. exists nan. split; reflexivity.
  - intros H. exists x. split; [reflexivity|exact H].
Qed.

(** An absent cell and the default in its place convert to the same value. *)
Lemma defaulted_update_row (proj : FeatureRow -> cell) upd d i rows r :
  (forall c r', proj (upd c r') = c) ->
  nth_error rows i = Some r ->
  absent (proj r) = true ->
  defaulted coerce_object d (map proj (update_row i (upd (CNum d)) rows)) =
  defaulted coerce_object d (map proj rows).
Proof.
  intros Hproj. unfold defaulted. revert i.
  induction rows as [|r0 rows IH]; intros [|i]; simpl; try discriminate.
  - intros [= ->] Habs. rewrite Hproj. simpl.
    destruct (to_numeric_absent _ Habs) as (x & -> & Hx). simpl.
    destruct (to_numeric_cells coerce_object (map proj rows)); simpl;
      [|reflexivity].
    unfold fill_value at 1 3. rewrite Hx.
    destruct (PrimFloat.is_nan d); reflexivity.
  - intros Hnth Habs. specialize (IH i Hnth Habs).
    destruct (to_numeric_cell coerce_object (proj r0)); simpl; [|reflexivity].
    destruct (to_numeric_cells coerce_object
                (map proj (update_row i (upd (CNum d)) rows)));
      destruct (to_numeric_cells coerce_object (map proj rows));
      simpl in *; congruence.
Qed.

Lemma scores_of_unscored_records rows :
  scores_of (DataFrame_of_records rows) = Raise KeyError.
Proof. unfold scores_of, getitem. rewrite records_no_score. reflexivity. Qed.

Lemma scores_of_set_other name v df :
  name <> "_pred_score" ->
  scores_of (set_column name v df) = scores_of df.
Proof.
  intros H. unfold scores_of, getitem.
  rewrite lookup_set_other by congruence.
  destruct (lookup "_pred_score" (columns df)); reflexivity.
Qed.

(** Two batches with the same defaulted price, rating and delivery columns
    that leave the same scored frame are ranked alike. *)
Lemma same_ranking_of_equal_columns g k rows rows' :
  fallback_active g -> rows <> [] -> rows' <> [] ->
  defaulted coerce_object 1 (map row_price rows') =
    defaulted coerce_object 1 (map row_price rows) ->
  defaulted coerce_object 0 (map row_rating rows') =
    defaulted coerce_object 0 (map row_rating rows) ->
  defaulted coerce_object 3 (map row_delivery_in_days rows') =
    defaulted coerce_object 3 (map row_delivery_in_days rows) ->
  (forall P R D, scored_records rows' P R D = scored_records rows P R D) ->
  same_ranking
    (infer_topk argsort coerce_object g k (DataFrame_of_records rows))
    (infer_topk argsort coerce_object g k (DataFrame_of_records rows')).
Proof.
  intros Hg Hne Hne' HP HR HD Hfinal.
  rewrite (infer_topk_records argsort coerce_object g k rows Hg Hne).
  rewrite (infer_topk_records argsort coerce_object g k rows' Hg Hne').
  rewrite HP, HR, HD.
  destruct (defaulted coerce_object 1 (map row_price rows)) as [P|e].
  2: { split; [reflexivity|]. simpl.
       rewrite !scores_of_unscored_records. reflexivity. }
  destruct (defaulted coerce_object 0 (map row_rating rows)) as [R|e].
  2: { split; [reflexivity|]. simpl.
       rewrite !scores_of_set_other, !scores_of_unscored_records
         by discriminate.
       reflexivity. }
  destruct (defaulted coerce_object 3 (map row_delivery_in_days rows)) as [D|e].
  2: { split; [reflexivity|]. simpl.
       rewrite !scores_of_set_other, !scores_of_unscored_records
         by discriminate.
       reflexivity. }
  rewrite Hfinal. split; reflexivity.
Qed.

End Defaults.

Lemma update_row_not_nil i f rows r :
  nth_error rows i = Some r -> rows <> [] /\ update_row i f rows <> [].
Proof.
  destruct rows as [|r0 rows]; destruct i; simpl; try discriminate;
    intros _; split; discriminate.
Qed.

(** C5.  Under the fallback heuristic a row whose price is absent ([None]
    or NaN) is ranked and scored exactly as if its price were 1, a row
    whose rating is absent as if it were 0, and a row whose delivery time is
    absent as if it were 3: the run on the batch and the run on the batch
    with the default written into that row return the same frame (or raise
    the same exception) and leave the same scores. *)
Theorem missing_fields_score_as_defaults :
  forall (argsort : list float -> list nat)
         (coerce_object : cell -> Result float)
         (g : Globals) (k : Z) (rows : list FeatureRow) (i : nat)
         (r : FeatureRow),
    fallback_active g ->
    nth_error rows i = Some r ->
    let run := fun batch =>
      infer_topk argsort coerce_object g k (DataFrame_of_records batch) in
    (absent (row_price r) = true ->
     same_ranking (run rows) (run (update_row i (with_price (CNum 1)) rows))) /\
    (absent (row_rating r) = true ->
     same_ranking (run rows) (run (update_row i (with_rating (CNum 0)) rows))) /\
    (absent (row_delivery_in_days r) = true ->
     same_ranking (run rows)
       (run (update_row i (with_delivery_in_days (CNum 3)) rows))).
Proof.
  intros argsort coerce_object g k rows i r Hg Hnth run. unfold run.
  split; [|split]; intros Habs.
  - destruct (update_row_not_nil i (with_price (CNum 1)) rows r Hnth).
    apply same_ranking_of_equal_columns; try assumption.
    + apply (defaulted_update_row coerce_object row_price with_price 1 i rows r);
        auto.
    + rewrite map_update_row_other; reflexivity.
    + rewrite map_update_row_other; reflexivity.
    + intros P R D. unfold scored_records.
      rewrite length_update_row, !map_update_row_other; reflexivity.
  - destruct (update_row_not_nil i (with_rating (CNum 0)) rows r Hnth).
    apply same_ranking_of_equal_columns; try assumption.
    + rewrite map_update_row_other; reflexivity.
    + apply (defaulted_update_row coerce_object row_rating with_rating 0 i rows r);
        auto.
    + rewrite map_update_row_other; reflexivity.
    + intros P R D. unfold scored_records.
      rewrite length_update_row, !map_update_row_other; reflexivity.
  - destruct (update_row_not_nil i (with_delivery_in_days (CNum 3)) rows r Hnth).
    apply same_ranking_of_equal_columns; try assumption.
    + rewrite map_update_row_other; reflexivity.
    + rewrite map_update_row_other; reflexivity.
    + apply (defaulted_update_row coerce_object row_delivery_in_days
               with_delivery_in_days 3 i rows r); auto.
    + intros P R D. unfold scored_records.
      rewrite length_update_row, !map_update_row_other; reflexivity.
Qed.

Lemma missing_fields_score_as_defaults_witness :
  let run := fun batch =>
    infer_topk argsort_stable rejects_objects no_artifact 3
      (DataFrame_of_records batch) in
  same_ranking (run sparse_offers)
    (run (update_row 0 (with_price (CNum 1)) sparse_offers)) /\
  same_ranking (run sparse_offers)
    (run (update_row 0 (with_rating (CNum 0)) sparse_offers)) /\
  same_ranking (run sparse_offers)
    (run (update_row 0 (with_delivery_in_days (CNum 3)) sparse_offers)).
Proof.
  destruct (missing_fields_score_as_defaults argsort_stable rejects_objects
              no_artifact 3 sparse_offers 0
              (sample_offer CNone CNone (CNum nan))
              (or_introl eq_refl) eq_refl) as (Hp & Hr & Hd).
  split; [apply Hp; reflexivity|].
  split; [apply Hr; reflexivity|apply Hd; reflexivity].
Defined.

(** ** The ranking reads the row labels and the score column only *)

Lemma ranking_reads_scores_only df1 df2 positions k :
  index df1 = index df2 ->
  lookup "_pred_score" (columns df1) = lookup "_pred_score" (columns df2) ->
  index (head k (take_rows positions df1)) =
    index (head k (take_rows positions df2)) /\
  scores_of (head k (take_rows positions df1)) =
    scores_of (head k (take_rows positions df2)).
Proof.
  intros Hi Hs. unfold head. rewrite !nrows_take_rows.
  set (stop := seq 0 _). split.
  - unfold take_rows. simpl. rewrite Hi. reflexivity.
  - unfold scores_of, getitem. rewrite !lookup_take_rows, Hs.
    destruct (lookup "_pred_score" (columns df2)); reflexivity.
Qed.

(** C9.  Under the fallback heuristic the scores depend on the price,
    rating and delivery columns only: two batches of equal length whose
    three defaulted columns agree, whatever their other fields hold, are left
    with the same scores, and the ranking returns the same row labels with
    the same scores (or raises the same exception). *)
Theorem fallback_score_ignores_other_fields :
  forall (argsort : list float -> list nat)
         (coerce_object : cell -> Result float)
         (g : Globals) (k : Z) (rows1 rows2 : list FeatureRow),
    fallback_active g ->
    length rows1 = length rows2 ->
    defaulted coerce_object 1 (map row_price rows1) =
      defaulted coerce_object 1 (map row_price rows2) ->
    defaulted coerce_object 0 (map row_rating rows1) =
      defaulted coerce_object 0 (map row_rating rows2) ->
    defaulted coerce_object 3 (map row_delivery_in_days rows1) =
      defaulted coerce_object 3 (map row_delivery_in_days rows2) ->
    let run1 :=
      infer_topk argsort coerce_object g k (DataFrame_of_records rows1) in
    let run2 :=
      infer_topk argsort coerce_object g k (DataFrame_of_records rows2) in
    scores_of (snd run1) = scores_of (snd run2) /\
    rmap index (fst run1) = rmap index (fst run2) /\
    rbind (fst run1) scores_of = rbind (fst run2) scores_of.
Proof.
  intros argsort coerce_object g k rows1 rows2 Hg Hlen HP HR HD run1 run2.
  subst run1 run2.
  destruct rows1 as [|r1 rows1], rows2 as [|r2 rows2]; try discriminate.
  { repeat split. }
  rewrite (infer_topk_records argsort coerce_object g k (r1 :: rows1) Hg)
    by discriminate.
  rewrite (infer_topk_records argsort coerce_object g k (r2 :: rows2) Hg)
    by discriminate.
  rewrite HP, HR, HD.
  destruct (defaulted coerce_object 1 (map row_price (r2 :: rows2))) as [P|e].
  2: { cbn [fst snd].
       rewrite !scores_of_unscored_records. repeat split. }
  destruct (defaulted coerce_object 0 (map row_rating (r2 :: rows2))) as [R|e].
  2: { cbn [fst snd].
       rewrite !scores_of_set_other, !scores_of_unscored_records
         by discriminate.
       repeat split. }
  destruct (defaulted coerce_object 3 (map row_delivery_in_days (r2 :: rows2)))
    as [D|e].
  2: { cbn [fst snd].
       rewrite !scores_of_set_other, !scores_of_unscored_records
         by discriminate.
       repeat split. }
  cbn [fst snd].
  destruct (ranking_reads_scores_only
              (scored_records (r1 :: rows1) P R D)
              (scored_records (r2 :: rows2) P R D)
              (nargsort argsort (fallback_formula P R D)) k) as [Hi Hs].
  { unfold scored_records. cbn [index]. rewrite Hlen. reflexivity. }
  { reflexivity. }
  split; [reflexivity|]. split; cbn [rmap rbind]; [rewrite Hi; reflexivity|exact Hs].
Qed.

Lemma fallback_score_ignores_other_fields_witness :
  let run1 :=
    infer_topk argsort_stable rejects_objects no_artifact 3
      (DataFrame_of_records example_offers) in
  let run2 :=
    infer_topk argsort_stable rejects_objects no_artifact 3
      (DataFrame_of_records relabelled_offers) in
  scores_of (snd run1) = scores_of (snd run2) /\
  rmap index (fst run1) = rmap index (fst run2) /\
  rbind (fst run1) scores_of = rbind (fst run2) scores_of.
Proof.
  apply (fallback_score_ignores_other_fields argsort_stable rejects_objects
           no_artifact 3 example_offers relabelled_offers).
  - left. reflexivity.
  - reflexivity.
  - reflexivity.
  - reflexivity.
  - reflexivity.
Defined.

(** ** Outside the claims' domain *)

(** Under the fallback a frame without a ["price"] column is not scored:
    [df.get] returns the bare default, [to_numeric] passes a number
    through, and the number has no [fillna]. *)
Lemma fallback_without_price_column_raises argsort coerce_object g k df :
  fallback_active g ->
  lookup "price" (columns df) = None ->
  infer_topk argsort coerce_object g k df = (Raise AttributeError, df).
Proof.
  intros Hg Hp. apply infer_topk_raise.
  rewrite score_fallback_active by exact Hg.
  unfold fallback_outcome. rewrite Hp. reflexivity.
Qed.

(** So is the frame of an empty list of offers, which has no column at
    all: the guard [if not offers] of [chat] keeps it away from
    [infer_topk]. *)
Lemma fallback_on_no_rows_raises argsort coerce_object g k :
  fallback_active g ->
  fst (infer_topk argsort coerce_object g k (DataFrame_of_records []))
  = Raise AttributeError.
Proof.
  intros Hg.
  rewrite (fallback_without_price_column_raises argsort coerce_object g k
             (DataFrame_of_records []) Hg); reflexivity.
Qed.

(** For a negative [k], [head] keeps all rows but the last [-k]. *)
Lemma head_negative k df :
  (k < 0)%Z ->
  nrows (head k df) = nrows df - Z.to_nat (- k).
Proof.
  intros Hk. unfold head. rewrite nrows_take_rows, length_seq.
  destruct (Z.ltb_spec k 0) as [_|H]; lia.
Qed.

(** ** The caller *)

Lemma flatten_no_offers py_str product :
  Forall (fun variant => offers variant = []) (variants product) ->
  flatten_offers py_str product = [].
Proof.
  unfold flatten_offers. induction 1 as [|variant vs Hv _ IH]; simpl.
  - reflexivity.
  - rewrite Hv, IH. reflexivity.
Qed.

(** When there is an offer, [chat] hands the frame of all offers to
    [infer_topk], once, with [k = 3]. *)
Lemma chat_ranks_the_offers argsort coerce_object py_str format_results g
  user_input product :
  user_input <> "" ->
  flatten_offers py_str product <> [] ->
  ranker_calls
    (chat argsort coerce_object py_str format_results g user_input
       (Some product))
  = [DataFrame_of_records (flatten_offers py_str product)].
Proof.
  intros Hin Hoffers. unfold chat.
  destruct (String.eqb_spec user_input "") as [->|_]; [congruence|].
  destruct (flatten_offers py_str product) as [|r rows]; [congruence|].
  destruct (infer_topk argsort coerce_object g 3
              (DataFrame_of_records (r :: rows))).
  reflexivity.
Qed.

(** C6.  A matched catalog entry whose variants hold no offer flattens to
    the empty sequence, and [chat] answers "no offers found" without handing
    any frame to [infer_topk]. *)
Theorem no_offers_skips_ranking :
  forall (argsort : list float -> list nat)
         (coerce_object : cell -> Result float) (py_str : cell -> string)
         (format_results : Product -> DataFrame -> Result (list pydict))
         (g : Globals) (user_input : string) (product : Product),
    user_input <> "" ->
    Forall (fun variant => offers variant = []) (variants product) ->
    flatten_offers py_str product = [] /\
    chat argsort coerce_object py_str format_results g user_input
      (Some product) =
      mkChatRun (Ok (NoOffersFound (product_name product))) [].
Proof.
  intros argsort coerce_object py_str format_results g user_input product
    Hin Hv.
  pose proof (flatten_no_offers py_str product Hv) as Hflat.
  split; [exact Hflat|].
  unfold chat.
  destruct (String.eqb_spec user_input "") as [->|_]; [congruence|].
  rewrite Hflat. reflexivity.
Qed.

Lemma no_offers_skips_ranking_witness :
  flatten_offers str_blank product_without_offers = [] /\
  chat argsort_stable rejects_objects str_blank score_records no_artifact
    "phone x" (Some product_without_offers) =
    mkChatRun (Ok (NoOffersFound (product_name product_without_offers))) [].
Proof.
  apply (no_offers_skips_ranking argsort_stable rejects_objects str_blank
           score_records no_artifact "phone x" product_without_offers).
  - discriminate.
  - repeat constructor.
Defined.

(** ** The model branch, end to end *)

Section ModelBranch.

Variable argsort : list float -> list nat.
Variable coerce_object : cell -> Result float.

Lemma score_model_active g pre mdl df :
  preproc g = Some pre -> model g = Some mdl ->
  score coerce_object g df = score_model pre mdl df.
Proof. intros Hp Hm. unfold score. rewrite Hp, Hm. reflexivity. Qed.

Lemma score_model_scored pre mdl df input X preds :
  model_input pre df = Ok input ->
  transform pre input = Ok X ->
  predict mdl X = Ok preds ->
  length preds = nrows df ->
  score_model pre mdl df =
  (Ok tt,
   set_column "_pred_score" (map CNum preds)
     (snd (add_missing_columns (feature_names_in_ pre) df))).
Proof.
  intros Hin HX Hp Hlen. rewrite score_model_run, Hin, HX, Hp. cbv zeta.
  apply Nat.eqb_eq in Hlen. rewrite Hlen. reflexivity.
Qed.

Lemma feature_column_length df name :
  well_formed df -> length (feature_column df name) = nrows df.
Proof.
  intros Hwf. unfold feature_column.
  destruct (lookup name (columns df)) as [c|] eqn:E.
  - eapply lookup_well_formed; eassumption.
  - apply repeat_length.
Qed.

End ModelBranch.

(** C7.  Under the learned model every feature name of the transform gets
    a column in the frame handed to it: the caller's column where there is
    one, a NaN placeholder where there is none, in the transform's own order
    and with nothing else.  The code adds no failure of its own: [infer_topk]
    raises only what the fitted transform or the regressor raises, or
    [ValueError] when the predictions are not one per row; and when the two
    library calls return one prediction per input row, scoring raises
    nothing and leaves exactly one score per input row. *)
Theorem model_scoring_fills_missing_features :
  forall (argsort : list float -> list nat)
         (coerce_object : cell -> Result float)
         (g : Globals) (pre : Preprocessor) (mdl : Regressor)
         (k : Z) (df : DataFrame),
    preproc g = Some pre ->
    model g = Some mdl ->
    well_formed df ->
    exists input,
      model_input pre df = Ok input /\
      column_names input = feature_names_in_ pre /\
      index input = index df /\
      well_formed input /\
      (forall name, In name (feature_names_in_ pre) ->
         lookup name (columns input) =
         Some (match lookup name (columns df) with
               | Some c => c
               | None => repeat (CNum nan) (nrows df)
               end)) /\
      (forall e,
         fst (infer_topk argsort coerce_object g k df) = Raise e ->
         transform pre input = Raise e \/
         (exists X, transform pre input = Ok X /\ predict mdl X = Raise e) \/
         (exists X preds,
            transform pre input = Ok X /\ predict mdl X = Ok preds /\
            length preds <> nrows df /\ e = ValueError)) /\
      (forall X preds,
         transform pre input = Ok X ->
         predict mdl X = Ok preds ->
         length preds = nrows df ->
         exists topk df',
           infer_topk argsort coerce_object g k df = (Ok topk, df') /\
           scores_of df' = Ok preds /\
           length preds = nrows df' /\
           nrows df' = nrows df).
Proof.
  intros argsort coerce_object g pre mdl k df Hpre Hmdl Hwf.
  set (names := feature_names_in_ pre).
  set (input := mkDataFrame (index df)
                  (map (fun n => (n, feature_column df n)) names)).
  assert (Hin : model_input pre df = Ok input) by apply model_input_ok.
  exists input.
  split; [exact Hin|].
  split.
  { unfold column_names, input. simpl. rewrite map_map. simpl. apply map_id. }
  split; [reflexivity|].
  split.
  { unfold well_formed, input. simpl. apply Forall_map, Forall_forall.
    intros n _. change (length (feature_column df n) = nrows df).
    apply feature_column_length, Hwf. }
  split.
  { intros name Hname. unfold input. simpl.
    apply (lookup_map_pairs names (feature_column df) name Hname). }
  split.
  - intros e. unfold infer_topk, bind.
    rewrite (score_model_active coerce_object g pre mdl df Hpre Hmdl).
    rewrite score_model_run, Hin. cbv zeta.
    destruct (transform pre input) as [X|e1] eqn:HX;
      [|intros [= ->]; left; reflexivity].
    destruct (predict mdl X) as [preds|e1] eqn:Hp;
      [|intros [= ->]; right; left; exists X; split; [reflexivity|exact Hp]].
    destruct (Nat.eqb (length preds) (nrows df)) eqn:Hlen.
    + unfold read, lift, sort_values. rewrite lookup_set_same, values_CNum.
      discriminate.
    + intros [= <-]. right. right. exists X, preds.
      apply Nat.eqb_neq in Hlen. repeat split; assumption.
  - intros X preds HX Hp Hlen.
    pose proof (score_model_scored pre mdl df input X preds Hin HX Hp Hlen)
      as Hrun.
    rewrite <- (score_model_active coerce_object g pre mdl df Hpre Hmdl)
      in Hrun.
    eexists. eexists.
    split; [eapply infer_topk_scored; [exact Hrun|apply lookup_set_same]|].
    split.
    { unfold scores_of, getitem. rewrite lookup_set_same, values_CNum.
      reflexivity. }
    assert (Hn : nrows
                   (set_column "_pred_score" (map CNum preds)
                      (snd (add_missing_columns (feature_names_in_ pre) df)))
                 = nrows df).
    { destruct (add_missing_columns_run names df) as (df1 & Hadd & Hidx & _).
      fold names. rewrite Hadd. unfold nrows. simpl. rewrite Hidx.
      reflexivity. }
    split; [rewrite Hn; exact Hlen|exact Hn].
Qed.

Lemma model_scoring_fills_missing_features_witness :
  let df := DataFrame_of_records example_offers in
  exists input,
    model_input toy_preproc df = Ok input /\
    column_names input = feature_names_in_ toy_preproc /\
    index input = index df /\
    well_formed input /\
    (forall name, In name (feature_names_in_ toy_preproc) ->
       lookup name (columns input) =
       Some (match lookup name (columns df) with
             | Some c => c
             | None => repeat (CNum nan) (nrows df)
             end)) /\
    (forall e,
       fst (infer_topk argsort_stable rejects_objects toy_artifact 3 df)
         = Raise e ->
       transform toy_preproc input = Raise e \/
       (exists X, transform toy_preproc input = Ok X /\
                  predict toy_model X = Raise e) \/
       (exists X preds,
          transform toy_preproc input = Ok X /\
          predict toy_model X = Ok preds /\
          length preds <> nrows df /\ e = ValueError)) /\
    (forall X preds,
       transform toy_preproc input = Ok X ->
       predict toy_model X = Ok preds ->
       length preds = nrows df ->
       exists topk df',
         infer_topk argsort_stable rejects_objects toy_artifact 3 df
           = (Ok topk, df') /\
         scores_of df' = Ok preds /\
         length preds = nrows df' /\
         nrows df' = nrows df).
Proof.
  apply (model_scoring_fills_missing_features argsort_stable rejects_objects
           toy_artifact toy_preproc toy_model 3
           (DataFrame_of_records example_offers)).
  - reflexivity.
  - reflexivity.
  - apply records_well_formed.
Defined.

(** The stand-in artifact scores the two example offers, the second of
    which lacks nothing but the ["discount"] feature. *)
Lemma toy_artifact_scores_example :
  scores_of
    (snd (infer_topk argsort_stable rejects_objects toy_artifact 3
            (DataFrame_of_records example_offers)))
  = Ok [1004.5; 503]%float.
Proof. vm_compute. reflexivity. Qed.

(** ** Scoring a frame that was already scored *)

Section Rescoring.

Variable argsort : list float -> list nat.
Variable coerce_object : cell -> Result float.

Lemma set_column_again name v df :
  set_column name v (set_column name v df) = set_column name v df.
Proof. apply set_column_unchanged, lookup_set_same. Qed.

Ltac settle_lookups :=
  repeat first
    [ rewrite lookup_set_same
    | rewrite lookup_set_other by discriminate ].

(** The fallback branch leaves a frame on which it does the same again. *)
Lemma fallback_outcome_again df r df1 :
  fallback_outcome coerce_object df = (r, df1) ->
  fallback_outcome coerce_object df1 = (r, df1).
Proof.
  unfold fallback_outcome at 1.
  destruct (lookup "price" (columns df)) as [cp|] eqn:Hp.
  2: { intros [= <- <-]. unfold fallback_outcome. rewrite Hp. reflexivity. }
  destruct (defaulted coerce_object 1 cp) as [P|e] eqn:HP.
  2: { intros [= <- <-]. unfold fallback_outcome. rewrite Hp, HP.
       reflexivity. }
  pose proof (defaulted_settled coerce_object 1 P
                (defaulted_not_nan _ _ _ _ not_nan_1 HP)) as SP.
  cbv zeta.
  destruct (lookup "rating" (columns df)) as [cr|] eqn:Hr.
  2: { intros [= <- <-]. unfold fallback_outcome. settle_lookups.
       rewrite SP, Hr, set_column_again. reflexivity. }
  destruct (defaulted coerce_object 0 cr) as [R|e] eqn:HR.
  2: { intros [= <- <-]. unfold fallback_outcome. settle_lookups.
       rewrite SP, Hr, HR, set_column_again. reflexivity. }
  pose proof (defaulted_settled coerce_object 0 R
                (defaulted_not_nan _ _ _ _ not_nan_0 HR)) as SR.
  assert (Hprice2 : forall d,
            lookup "price" (columns d) = Some (map CNum P) ->
            set_column "price" (map CNum P) d = d)
    by (intros d; apply set_column_unchanged).
  assert (Hrating2 : forall d,
            lookup "rating" (columns d) = Some (map CNum R) ->
            set_column "rating" (map CNum R) d = d)
    by (intros d; apply set_column_unchanged).
  destruct (lookup "delivery_in_days" (columns df)) as [cd|] eqn:Hd.
  2: { intros [= <- <-]. unfold fallback_outcome. settle_lookups.
       rewrite SP, SR, Hd. cbv zeta.
       rewrite Hprice2 by (settle_lookups; reflexivity).
       rewrite set_column_again. reflexivity. }
  destruct (defaulted coerce_object 3 cd) as [D|e] eqn:HD.
  2: { intros [= <- <-]. unfold fallback_outcome. settle_lookups.
       rewrite SP, SR, Hd, HD. cbv zeta.
       rewrite Hprice2 by (settle_lookups; reflexivity).
       rewrite set_column_again. reflexivity. }
  pose proof (defaulted_settled coerce_object 3 D
                (defaulted_not_nan _ _ _ _ not_nan_3 HD)) as SD.
  intros [= <- <-]. unfold fallback_outcome. settle_lookups.
  rewrite SP, SR, SD. cbv zeta.
  rewrite Hprice2 by (settle_lookups; reflexivity).
  rewrite Hrating2 by (settle_lookups; reflexivity).
  rewrite (set_column_unchanged "delivery_in_days" (map CNum D))
    by (settle_lookups; reflexivity).
  rewrite set_column_again. reflexivity.
Qed.

End Rescoring.

Section RescoringModel.

Variable pre : Preprocessor.
Variable mdl : Regressor.

Let names : list string := feature_names_in_ pre.

Lemma add_missing_columns_noop feature_names d :
  (forall n, In n feature_names -> has_column n d = true) ->
  add_missing_columns feature_names d = (Ok tt, d).
Proof.
  induction feature_names as [|col rest IH]; intros H; simpl; [reflexivity|].
  unfold bind at 1. unfold bind at 1. unfold read.
  rewrite (H col) by (left; reflexivity). unfold ret.
  apply IH. intros n Hn. apply H. right. exact Hn.
Qed.

(** A frame that already has every feature column of [df]'s model input is
    handed to the transform unchanged. *)
Lemma model_rerun df st :
  index st = index df ->
  (forall n, In n names -> lookup n (columns st) = Some (feature_column df n)) ->
  add_missing_columns names st = (Ok tt, st) /\
  model_input pre st = model_input pre df /\
  nrows st = nrows df.
Proof.
  intros Hidx Hcols. split; [|split].
  - apply add_missing_columns_noop. intros n Hn. unfold has_column.
    rewrite (Hcols n Hn). reflexivity.
  - rewrite !model_input_ok, Hidx. do 2 f_equal.
    apply map_ext_in. intros n Hn. f_equal.
    unfold feature_column at 1. rewrite (Hcols n Hn). reflexivity.
  - unfold nrows. rewrite Hidx. reflexivity.
Qed.

Lemma score_model_again df r st :
  ~ In "_pred_score" names ->
  score_model pre mdl df = (r, st) ->
  score_model pre mdl st = (r, st).
Proof.
  intros Hnot. rewrite score_model_run. fold names.
  destruct (add_missing_columns_run names df) as (df1 & Hadd & Hidx & Hcols).
  rewrite Hadd. cbn [snd].
  assert (H1 : forall n, In n names ->
                 lookup n (columns df1) = Some (feature_column df n)).
  { intros n Hn. rewrite Hcols. unfold feature_column.
    destruct (lookup n (columns df)); [reflexivity|].
    rewrite existsb_eqb_In by exact Hn. reflexivity. }
  destruct (model_rerun df df1 Hidx H1) as (A1 & I1 & N1).
  assert (Hstop : forall e,
            match model_input pre df with
            | Raise e' => e' = e
            | Ok input =>
                match transform pre input with
                | Raise e' => e' = e
                | Ok X =>
                    match predict mdl X with
                    | Raise e' => e' = e
                    | Ok preds =>
                        Nat.eqb (length preds) (nrows df) = false /\
                        e = ValueError
                    end
                end
            end ->
            score_model pre mdl df1 = (Raise e, df1)).
  { intros e He. rewrite score_model_run. fold names.
    rewrite A1, I1, N1. cbn [snd].
    destruct (model_input pre df) as [input|]; [|congruence].
    destruct (transform pre input) as [X|]; [|congruence].
    destruct (predict mdl X) as [preds|]; [|congruence].
    destruct He as [-> ->]. reflexivity. }
  destruct (model_input pre df) as [input|e] eqn:Hin.
  2: { intros [= <- <-]. apply Hstop. reflexivity. }
  destruct (transform pre input) as [X|e] eqn:HX.
  2: { intros [= <- <-]. apply Hstop. reflexivity. }
  destruct (predict mdl X) as [preds|e] eqn:Hp.
  2: { intros [= <- <-]. apply Hstop. reflexivity. }
  destruct (Nat.eqb (length preds) (nrows df)) eqn:Hlen.
  2: { intros [= <- <-]. apply Hstop. split; reflexivity. }
  intros [= <- <-].
  set (df2 := set_column "_pred_score" (map CNum preds) df1).
  assert (H2 : forall n, In n names ->
                 lookup n (columns df2) = Some (feature_column df n)).
  { intros n Hn. unfold df2. rewrite lookup_set_other; [apply H1, Hn|].
    intros ->. exact (Hnot Hn). }
  destruct (model_rerun df df2 Hidx H2) as (A2 & I2 & N2).
  rewrite score_model_run. fold names.
  rewrite A2, I2, N2, Hin, HX, Hp. cbn [snd]. rewrite Hlen.
  unfold df2. rewrite set_column_again. reflexivity.
Qed.

End RescoringModel.

Lemma score_again coerce_object g df r df1 :
  score_not_a_feature g ->
  score coerce_object g df = (r, df1) ->
  score coerce_object g df1 = (r, df1).
Proof.
  unfold score_not_a_feature, score.
  destruct (preproc g) as [pre|]; [destruct (model g) as [mdl|]|]; intros Hf.
  - apply score_model_again, Hf.
  - rewrite !score_fallback_eq. apply fallback_outcome_again.
  - rewrite !score_fallback_eq. apply fallback_outcome_again.
Qed.

(** C8.  Scoring is deterministic and idempotent: [infer_topk] is a
    function of the strategy, [k] and the frame, which is all the state it
    reads or writes; and run a second time on the frame the first run left,
    it returns the same ranking (or raises the same exception) and leaves the
    frame, with its scores, as it was.  Under the learned model this needs
    the score column not to be one of the transform's features. *)
Theorem rescoring_is_idempotent :
  forall (argsort : list float -> list nat)
         (coerce_object : cell -> Result float)
         (g : Globals) (k : Z) (df : DataFrame)
         (r : Result DataFrame) (df1 : DataFrame),
    score_not_a_feature g ->
    infer_topk argsort coerce_object g k df = (r, df1) ->
    infer_topk argsort coerce_object g k df1 = (r, df1).
Proof.
  intros argsort coerce_object g k df r df1 Hf.
  unfold infer_topk, bind.
  destruct (score coerce_object g df) as [[[]|e] d] eqn:E;
    intros [= <- <-]; rewrite (score_again coerce_object g df _ _ Hf E);
    reflexivity.
Qed.

Lemma rescoring_is_idempotent_witness :
  let run :=
    infer_topk argsort_stable rejects_objects toy_artifact 3
      (DataFrame_of_records example_offers) in
  infer_topk argsort_stable rejects_objects toy_artifact 3 (snd run) = run.
Proof.
  intros run.
  rewrite (surjective_pairing run) at 2.
  apply (rescoring_is_idempotent argsort_stable rejects_objects toy_artifact 3
           (DataFrame_of_records example_offers)).
  - simpl. intros [H|[H|[H|[]]]]; discriminate H.
  - apply surjective_pairing.
Defined.

(** The score column is not among the features the trainer fits on. *)
Lemma trained_features_exclude_score g pre :
  preproc g = Some pre ->
  feature_names_in_ pre = trained_features ->
  score_not_a_feature g.
Proof.
  intros Hp Hf. unfold score_not_a_feature. rewrite Hp.
  destruct (model g); [|exact I]. rewrite Hf. simpl.
  intros H. repeat (destruct H as [H|H]; [discriminate H|]). exact H.
Qed.

(** ** What the caller's frame looks like afterwards *)

Lemma frames_differ_by_score_column df df' scores :
  lookup "_pred_score" (columns df) = None ->
  scores_of df' = Ok scores ->
  df' <> df.
Proof.
  intros Hnone Hs Heq. subst df'. unfold scores_of, getitem in Hs.
  rewrite Hnone in Hs. discriminate Hs.
Qed.

(** C10.  [infer_topk] changes the frame it is given.  Under the fallback,
    a non-empty batch comes back with its price, rating and delivery columns
    overwritten by their defaulted values and with a score column it did not
    have.  Under the learned model, a frame without a score column comes
    back with every column it had, a NaN column for each feature it lacked,
    and the score column.  Either way the caller's frame is no longer the
    frame passed in. *)
Theorem infer_topk_mutates_its_input :
  forall (argsort : list float -> list nat)
         (coerce_object : cell -> Result float) (k : Z),
    (forall (g : Globals) (rows : list FeatureRow) (P R D : list float),
        fallback_active g ->
        rows <> [] ->
        defaulted coerce_object 1 (map row_price rows) = Ok P ->
        defaulted coerce_object 0 (map row_rating rows) = Ok R ->
        defaulted coerce_object 3 (map row_delivery_in_days rows) = Ok D ->
        let df := DataFrame_of_records rows in
        let df' := snd (infer_topk argsort coerce_object g k df) in
        lookup "price" (columns df') = Some (map CNum P) /\
        lookup "rating" (columns df') = Some (map CNum R) /\
        lookup "delivery_in_days" (columns df') = Some (map CNum D) /\
        lookup "_pred_score" (columns df) = None /\
        lookup "_pred_score" (columns df') =
          Some (map CNum (fallback_formula P R D)) /\
        length (fallback_formula P R D) = nrows df /\
        df' <> df) /\
    (forall (g : Globals) (pre : Preprocessor) (mdl : Regressor)
            (df input : DataFrame) (X : list (list float))
            (preds : list float),
        preproc g = Some pre ->
        model g = Some mdl ->
        lookup "_pred_score" (columns df) = None ->
        model_input pre df = Ok input ->
        transform pre input = Ok X ->
        predict mdl X = Ok preds ->
        length preds = nrows df ->
        let df' := snd (infer_topk argsort coerce_object g k df) in
        (forall name c,
            name <> "_pred_score" ->
            lookup name (columns df) = Some c ->
            lookup name (columns df') = Some c) /\
        (forall name,
            name <> "_pred_score" ->
            In name (feature_names_in_ pre) ->
            lookup name (columns df) = None ->
            lookup name (columns df') = Some (repeat (CNum nan) (nrows df))) /\
        lookup "_pred_score" (columns df') = Some (map CNum preds) /\
        df' <> df).
Proof.
  intros argsort coerce_object k. split.
  - intros g rows P R D Hg Hne HP HR HD df df'.
    assert (Hdf' : df' = scored_records rows P R D).
    { unfold df', df.
      rewrite (infer_topk_records argsort coerce_object g k rows Hg Hne).
      rewrite HP, HR, HD. reflexivity. }
    rewrite Hdf'.
    repeat (split; [reflexivity|]).
    split; [apply records_no_score|].
    split; [reflexivity|].
    split.
    + pose proof (defaulted_length _ _ _ _ HP) as LP.
      pose proof (defaulted_length _ _ _ _ HR) as LR.
      pose proof (defaulted_length _ _ _ _ HD) as LD.
      rewrite length_map in LP, LR, LD.
      rewrite length_fallback_formula. unfold df.
      rewrite records_nrows. lia.
    + apply (frames_differ_by_score_column _ _ (fallback_formula P R D)).
      * apply records_no_score.
      * unfold scores_of, getitem. simpl. rewrite values_CNum. reflexivity.
  - intros g pre mdl df input X preds Hpre Hmdl Hnone Hin HX Hp Hlen df'.
    assert (Hdf' : df' =
                   set_column "_pred_score" (map CNum preds)
                     (snd (add_missing_columns (feature_names_in_ pre) df))).
    { unfold df'. rewrite infer_topk_state.
      rewrite (score_model_active coerce_object g pre mdl df Hpre Hmdl).
      rewrite (score_model_scored pre mdl df input X preds Hin HX Hp Hlen).
      reflexivity. }
    rewrite Hdf'.
    destruct (add_missing_columns_run (feature_names_in_ pre) df)
      as (df1 & Hadd & Hidx & Hcols).
    rewrite Hadd. cbn [snd].
    split; [|split; [|split]].
    + intros name c Hname Hc. rewrite lookup_set_other by exact Hname.
      rewrite Hcols, Hc. reflexivity.
    + intros name Hname Hfeat Hmiss. rewrite lookup_set_other by exact Hname.
      rewrite Hcols, Hmiss, existsb_eqb_In by exact Hfeat. reflexivity.
    + apply lookup_set_same.
    + apply (frames_differ_by_score_column _ _ preds Hnone).
      unfold scores_of, getitem. rewrite lookup_set_same, values_CNum.
      reflexivity.
Qed.

Lemma infer_topk_mutates_its_input_witness :
  (let df := DataFrame_of_records sparse_offers in
   let df' := snd (infer_topk argsort_stable rejects_objects no_artifact 3 df) in
   lookup "price" (columns df') = Some (map CNum [1; 800]%float) /\
   lookup "rating" (columns df') = Some (map CNum [0; 4]%float) /\
   lookup "delivery_in_days" (columns df') = Some (map CNum [3; 4]%float) /\
   lookup "_pred_score" (columns df) = None /\
   lookup "_pred_score" (columns df') =
     Some (map CNum (fallback_formula [1; 800]%float [0; 4]%float [3; 4]%float)) /\
   length (fallback_formula [1; 800]%float [0; 4]%float [3; 4]%float) = nrows df /\
   df' <> df) /\
  (let df := DataFrame_of_records example_offers in
   let df' := snd (infer_topk argsort_stable rejects_objects toy_artifact 3 df) in
   lookup "discount" (columns df') = Some (repeat (CNum nan) (nrows df)) /\
   lookup "_pred_score" (columns df') = Some (map CNum [1004.5; 503]%float) /\
   df' <> df).
Proof.
  destruct (infer_topk_mutates_its_input argsort_stable rejects_objects 3)
    as [Hfallback Hmodel].
  split.
  - apply (Hfallback no_artifact sparse_offers
             [1; 800]%float [0; 4]%float [3; 4]%float).
    + left. reflexivity.
    + discriminate.
    + reflexivity.
    + reflexivity.
    + reflexivity.
  - destruct (Hmodel toy_artifact toy_preproc toy_model
                (DataFrame_of_records example_offers)
                (mkDataFrame [0; 1]
                   [ ("rating", [CNum 4.5; CNum 3]);
                     ("price", [CNum 1000; CNum 500]);
                     ("discount", [CNum nan; CNum nan]) ])
                [[4.5; 1000; 0]; [3; 500; 0]]%float
                [1004.5; 503]%float)
      as (_ & Hnan & Hscore & Hneq);
      try reflexivity.
    split; [|split; [exact Hscore|exact Hneq]].
    apply Hnan; [discriminate| |reflexivity].
    right. right. left. reflexivity.
Defined.

(** * Further properties of the code *)

(** ** What the ranking returns *)

Section Ranked.

Variable argsort : list float -> list nat.
Variable coerce_object : cell -> Result float.
Hypothesis argsort_sorts : sorts_ascending argsort.

(** The frame [infer_topk] returns for a count [k >= 0]: the rows of the
    scored frame at the first [min(k, n)] positions of the descending
    order. *)
Lemma infer_topk_ranked g k df :
  well_formed df -> scorable coerce_object g df -> (0 <= k)%Z ->
  exists df' S,
    score coerce_object g df = (Ok tt, df') /\
    lookup "_pred_score" (columns df') = Some (map CNum S) /\
    length S = nrows df /\
    index df' = index df /\
    infer_topk argsort coerce_object g k df =
    (Ok (take_rows
           (firstn (Nat.min (Z.to_nat k) (nrows df)) (nargsort argsort S))
           df'),
     df').
Proof.
  intros Hwf Hsc Hk.
  destruct (scorable_scored coerce_object g df Hwf Hsc)
    as (df' & S & Hrun & Hl & Hlen & Hidx).
  assert (Hn : nrows df' = nrows df) by (unfold nrows; rewrite Hidx; reflexivity).
  exists df', S. repeat (split; [assumption|]).
  rewrite (infer_topk_scored argsort coerce_object g k df df' S Hrun Hl).
  rewrite head_of_sorted by (assumption || lia). rewrite Hn. reflexivity.
Qed.

Lemma scores_of_scored df S :
  lookup "_pred_score" (columns df) = Some (map CNum S) ->
  scores_of df = Ok S.
Proof.
  intros H. unfold scores_of, getitem. rewrite H, values_CNum. reflexivity.
Qed.

Lemma index_take_rows_identity positions df :
  index (take_rows positions df) =
  map (fun i => nth i (index df) 0) positions.
Proof. reflexivity. Qed.

End Ranked.

(** X1.  The rows [infer_topk] returns are the best ones: the positions of
    the scored frame split into those returned and those left out, and no
    row left out has a score above the score of a returned row. *)
Theorem top_k_rows_are_the_best :
  forall (argsort : list float -> list nat)
         (coerce_object : cell -> Result float)
         (g : Globals) (k : Z) (df : DataFrame),
    sorts_ascending argsort ->
    well_formed df ->
    scorable coerce_object g df ->
    (0 <= k)%Z ->
    exists topk df' S returned left_out,
      infer_topk argsort coerce_object g k df = (Ok topk, df') /\
      scores_of df' = Ok S /\
      topk = take_rows returned df' /\
      Permutation (returned ++ left_out) (seq 0 (nrows df)) /\
      forall i j, In i returned -> In j left_out ->
        PrimFloat.ltb (nth i S nan) (nth j S nan) = false.
Proof.
  intros argsort coerce_object g k df Hsort Hwf Hsc Hk.
  destruct (infer_topk_ranked argsort coerce_object Hsort g k df Hwf Hsc Hk)
    as (df' & S & _ & Hl & Hlen & _ & Hrun).
  set (m := Nat.min (Z.to_nat k) (nrows df)) in *.
  exists (take_rows (firstn m (nargsort argsort S)) df'), df', S,
    (firstn m (nargsort argsort S)), (skipn m (nargsort argsort S)).
  split; [exact Hrun|].
  split; [apply scores_of_scored, Hl|].
  split; [reflexivity|].
  split.
  { rewrite firstn_skipn, <- Hlen. apply nargsort_perm, Hsort. }
  pose proof (nargsort_non_increasing argsort Hsort S) as Hnon.
  unfold non_increasing in Hnon. apply StronglySorted_map in Hnon.
  rewrite <- (firstn_skipn m (nargsort argsort S)) in Hnon.
  intros i j Hi Hj.
  exact (StronglySorted_app_cross _ _ _ Hnon i j Hi Hj).
Qed.

Lemma top_k_rows_are_the_best_witness :
  exists topk df' S returned left_out,
    infer_topk argsort_stable rejects_objects no_artifact 1
      (DataFrame_of_records example_offers) = (Ok topk, df') /\
    scores_of df' = Ok S /\
    topk = take_rows returned df' /\
    Permutation (returned ++ left_out)
      (seq 0 (nrows (DataFrame_of_records example_offers))) /\
    forall i j, In i returned -> In j left_out ->
      PrimFloat.ltb (nth i S nan) (nth j S nan) = false.
Proof.
  apply (top_k_rows_are_the_best argsort_stable rejects_objects no_artifact 1
           (DataFrame_of_records example_offers)).
  - exact argsort_stable_sorts.
  - apply records_well_formed.
  - exists (map row_price example_offers), (map row_rating example_offers),
      (map row_delivery_in_days example_offers),
      [1000; 500]%float, [4.5; 3]%float, [2; 5]%float.
    repeat split; reflexivity.
  - lia.
Defined.

(** X2.  With [k] at least the number of rows nothing is dropped:
    [infer_topk] returns every row of the frame exactly once, the row
    labels being a permutation of the frame's. *)
Theorem large_k_returns_every_row :
  forall (argsort : list float -> list nat)
         (coerce_object : cell -> Result float)
         (g : Globals) (k : Z) (df : DataFrame),
    sorts_ascending argsort ->
    well_formed df ->
    scorable coerce_object g df ->
    (Z.of_nat (nrows df) <= k)%Z ->
    exists topk df',
      infer_topk argsort coerce_object g k df = (Ok topk, df') /\
      nrows topk = nrows df /\
      Permutation (index topk) (index df).
Proof.
  intros argsort coerce_object g k df Hsort Hwf Hsc Hk.
  destruct (infer_topk_ranked argsort coerce_object Hsort g k df Hwf Hsc)
    as (df' & S & _ & Hl & Hlen & Hidx & Hrun); [lia|].
  replace (Nat.min (Z.to_nat k) (nrows df)) with (nrows df) in Hrun by lia.
  rewrite firstn_all2 in Hrun
    by (rewrite nargsort_length by exact Hsort; lia).
  eexists. eexists. split; [exact Hrun|].
  split.
  { rewrite nrows_take_rows, nargsort_length by exact Hsort. exact Hlen. }
  rewrite index_take_rows_identity, Hidx.
  eapply Permutation_trans.
  - apply Permutation_map. apply nargsort_perm, Hsort.
  - rewrite Hlen. unfold nrows. rewrite map_nth_seq_all. reflexivity.
Qed.

Lemma large_k_returns_every_row_witness :
  exists topk df',
    infer_topk argsort_stable rejects_objects no_artifact 3
      (DataFrame_of_records example_offers) = (Ok topk, df') /\
    nrows topk = nrows (DataFrame_of_records example_offers) /\
    Permutation (index topk) (index (DataFrame_of_records example_offers)).
Proof.
  apply (large_k_returns_every_row argsort_stable rejects_objects no_artifact 3
           (DataFrame_of_records example_offers)).
  - exact argsort_stable_sorts.
  - apply records_well_formed.
  - exists (map row_price example_offers), (map row_rating example_offers),
      (map row_delivery_in_days example_offers),
      [1000; 500]%float, [4.5; 3]%float, [2; 5]%float.
    repeat split; reflexivity.
  - simpl. lia.
Defined.

(** X3.  Rankings of the same frame are prefixes of one another: the frame
    returned for a count [k] is the head of the frame returned for any
    larger count, so the top deal is the first of the top three. *)
Theorem smaller_k_is_a_prefix :
  forall (argsort : list float -> list nat)
         (coerce_object : cell -> Result float)
         (g : Globals) (k k' : Z) (df : DataFrame),
    sorts_ascending argsort ->
    well_formed df ->
    scorable coerce_object g df ->
    (0 <= k <= k')%Z ->
    exists topk topk' df',
      infer_topk argsort coerce_object g k df = (Ok topk, df') /\
      infer_topk argsort coerce_object g k' df = (Ok topk', df') /\
      topk = head k topk'.
Proof.
  intros argsort coerce_object g k k' df Hsort Hwf Hsc Hk.
  destruct (scorable_scored coerce_object g df Hwf Hsc)
    as (df' & S & Hrun & Hl & Hlen & Hidx).
  assert (Hn : nrows df' = nrows df) by (unfold nrows; rewrite Hidx; reflexivity).
  pose proof (nargsort_length argsort Hsort S) as Hix.
  exists (take_rows (firstn (Nat.min (Z.to_nat k) (nrows df))
                       (nargsort argsort S)) df'),
         (take_rows (firstn (Nat.min (Z.to_nat k') (nrows df))
                       (nargsort argsort S)) df'),
         df'.
  split.
  { rewrite (infer_topk_scored argsort coerce_object g k df df' S Hrun Hl).
    rewrite head_of_sorted by (assumption || lia). rewrite Hn. reflexivity. }
  split.
  { rewrite (infer_topk_scored argsort coerce_object g k' df df' S Hrun Hl).
    rewrite head_of_sorted by (assumption || lia). rewrite Hn. reflexivity. }
  rewrite head_nonneg by lia.
  rewrite nrows_take_rows, length_firstn, Hix, Hlen.
  rewrite take_rows_take_rows.
  - rewrite map_nth_seq by (rewrite length_firstn, Hix, Hlen; lia).
    rewrite firstn_firstn. f_equal. f_equal. lia.
  - apply Forall_forall. intros i Hi. apply in_seq in Hi.
    rewrite length_firstn, Hix, Hlen. lia.
Qed.

Lemma smaller_k_is_a_prefix_witness :
  exists topk topk' df',
    infer_topk argsort_stable rejects_objects no_artifact 1
      (DataFrame_of_records tied_offers) = (Ok topk, df') /\
    infer_topk argsort_stable rejects_objects no_artifact 3
      (DataFrame_of_records tied_offers) = (Ok topk', df') /\
    topk = head 1 topk'.
Proof.
  apply (smaller_k_is_a_prefix argsort_stable rejects_objects no_artifact 1 3
           (DataFrame_of_records tied_offers)).
  - exact argsort_stable_sorts.
  - apply records_well_formed.
  - exists (map row_price tied_offers), (map row_rating tied_offers),
      (map row_delivery_in_days tied_offers).
    eexists. eexists. eexists.
    repeat split; reflexivity.
  - lia.
Defined.

(** ** What the fallback branch does to the frame *)

Lemma column_names_assign name v cols :
  map fst (assign name v cols) =
  match lookup name cols with
  | Some _ => map fst cols
  | None => (map fst cols ++ [name])%list
  end.
Proof.
  induction cols as [|[n c] cols IH]; simpl; [reflexivity|].
  destruct (String.eqb n name); simpl; [reflexivity|].
  rewrite IH. destruct (lookup name cols); reflexivity.
Qed.

Lemma column_names_set_existing name v df c :
  lookup name (columns df) = Some c ->
  column_names (set_column name v df) = column_names df.
Proof.
  intros H. unfold column_names, set_column. simpl.
  rewrite column_names_assign, H. reflexivity.
Qed.

Section FallbackFrame.

Variable argsort : list float -> list nat.
Variable coerce_object : cell -> Result float.

Lemma fallback_state g k df cp cr cd P R D :
  fallback_active g ->
  lookup "price" (columns df) = Some cp ->
  lookup "rating" (columns df) = Some cr ->
  lookup "delivery_in_days" (columns df) = Some cd ->
  defaulted coerce_object 1 cp = Ok P ->
  defaulted coerce_object 0 cr = Ok R ->
  defaulted coerce_object 3 cd = Ok D ->
  snd (infer_topk argsort coerce_object g k df) =
  set_column "_pred_score" (map CNum (fallback_formula P R D))
    (set_column "delivery_in_days" (map CNum D)
       (set_column "rating" (map CNum R)
          (set_column "price" (map CNum P) df))).
Proof.
  intros Hg Hp Hr Hd HP HR HD.
  rewrite infer_topk_state, score_fallback_active by exact Hg.
  rewrite (fallback_outcome_scorable coerce_object df cp cr cd P R D);
    auto.
Qed.

End FallbackFrame.

(** X4.  The fallback branch writes four columns and nothing else: the row
    labels and every other column of the caller's frame are as they were,
    and the column names keep their order, with ["_pred_score"] appended
    when the frame had no such column. *)
Theorem fallback_touches_four_columns_only :
  forall (argsort : list float -> list nat)
         (coerce_object : cell -> Result float)
         (g : Globals) (k : Z) (df : DataFrame),
    fallback_active g ->
    scorable_fallback coerce_object df ->
    let df' := snd (infer_topk argsort coerce_object g k df) in
    index df' = index df /\
    (forall name,
        name <> "price" -> name <> "rating" ->
        name <> "delivery_in_days" -> name <> "_pred_score" ->
        lookup name (columns df') = lookup name (columns df)) /\
    column_names df' =
      (column_names df ++
       (if has_column "_pred_score" df then [] else ["_pred_score"]))%list.
Proof.
  intros argsort coerce_object g k df Hg
    (cp & cr & cd & P & R & D & Hp & Hr & Hd & HP & HR & HD) df'.
  unfold df'.
  rewrite (fallback_state argsort coerce_object g k df cp cr cd P R D)
    by assumption.
  split; [reflexivity|]. split.
  - intros name N1 N2 N3 N4.
    rewrite !lookup_set_other by assumption. reflexivity.
  - set (d3 := set_column "delivery_in_days" (map CNum D)
                 (set_column "rating" (map CNum R)
                    (set_column "price" (map CNum P) df))).
    assert (Hnames : column_names d3 = column_names df).
    { unfold d3.
      rewrite (column_names_set_existing "delivery_in_days" _ _ cd)
        by (rewrite !lookup_set_other by discriminate; exact Hd).
      rewrite (column_names_set_existing "rating" _ _ cr)
        by (rewrite !lookup_set_other by discriminate; exact Hr).
      apply (column_names_set_existing "price" _ _ cp Hp). }
    assert (Hscore : lookup "_pred_score" (columns d3)
                     = lookup "_pred_score" (columns df)).
    { unfold d3. rewrite !lookup_set_other by discriminate. reflexivity. }
    change (map fst (assign "_pred_score" (map CNum (fallback_formula P R D))
                       (columns d3)) =
            (column_names df ++
             (if has_column "_pred_score" df then [] else ["_pred_score"]))%list).
    rewrite column_names_assign, Hscore.
    fold (column_names d3). rewrite Hnames. unfold has_column.
    destruct (lookup "_pred_score" (columns df)).
    + rewrite app_nil_r. reflexivity.
    + reflexivity.
Qed.

Lemma fallback_touches_four_columns_only_witness :
  let df := DataFrame_of_records sparse_offers in
  let df' :=
    snd (infer_topk argsort_stable rejects_objects no_artifact 3 df) in
  index df' = index df /\
  (forall name,
      name <> "price" -> name <> "rating" ->
      name <> "delivery_in_days" -> name <> "_pred_score" ->
      lookup name (columns df') = lookup name (columns df)) /\
  column_names df' =
    (column_names df ++
     (if has_column "_pred_score" df then [] else ["_pred_score"]))%list.
Proof.
  apply (fallback_touches_four_columns_only argsort_stable rejects_objects
           no_artifact 3 (DataFrame_of_records sparse_offers)).
  - left. reflexivity.
  - exists (map row_price sparse_offers), (map row_rating sparse_offers),
      (map row_delivery_in_days sparse_offers),
      [1; 800]%float, [0; 4]%float, [3; 4]%float.
    repeat split; reflexivity.
Defined.

(** X5.  After the fallback branch the price, rating and delivery columns
    of the caller's frame hold no missing value: each is a column of numbers
    that are not NaN, as long as the column it replaces. *)
Theorem fallback_leaves_no_missing_value :
  forall (argsort : list float -> list nat)
         (coerce_object : cell -> Result float)
         (g : Globals) (k : Z) (df : DataFrame),
    fallback_active g ->
    scorable_fallback coerce_object df ->
    let df' := snd (infer_topk argsort coerce_object g k df) in
    forall name,
      In name ["price"; "rating"; "delivery_in_days"] ->
      exists before after,
        lookup name (columns df) = Some before /\
        lookup name (columns df') = Some (map CNum after) /\
        Forall not_nan after /\
        length after = length before.
Proof.
  intros argsort coerce_object g k df Hg
    (cp & cr & cd & P & R & D & Hp & Hr & Hd & HP & HR & HD) df' name Hname.
  unfold df'.
  rewrite (fallback_state argsort coerce_object g k df cp cr cd P R D)
    by assumption.
  destruct Hname as [<-|[<-|[<-|[]]]].
  - exists cp, P. split; [exact Hp|]. split.
    + rewrite !lookup_set_other by discriminate. apply lookup_set_same.
    + split; [exact (defaulted_not_nan _ _ _ _ not_nan_1 HP)|].
      exact (defaulted_length _ _ _ _ HP).
  - exists cr, R. split; [exact Hr|]. split.
    + rewrite !lookup_set_other by discriminate. apply lookup_set_same.
    + split; [exact (defaulted_not_nan _ _ _ _ not_nan_0 HR)|].
      exact (defaulted_length _ _ _ _ HR).
  - exists cd, D. split; [exact Hd|]. split.
    + rewrite !lookup_set_other by discriminate. apply lookup_set_same.
    + split; [exact (defaulted_not_nan _ _ _ _ not_nan_3 HD)|].
      exact (defaulted_length _ _ _ _ HD).
Qed.

Lemma fallback_leaves_no_missing_value_witness :
  let df := DataFrame_of_records sparse_offers in
  let df' :=
    snd (infer_topk argsort_stable rejects_objects no_artifact 3 df) in
  exists before after,
    lookup "price" (columns df) = Some before /\
    lookup "price" (columns df') = Some (map CNum after) /\
    Forall not_nan after /\
    length after = length before.
Proof.
  refine (fallback_leaves_no_missing_value argsort_stable rejects_objects
            no_artifact 3 (DataFrame_of_records sparse_offers) _ _ "price" _).
  - left. reflexivity.
  - exists (map row_price sparse_offers), (map row_rating sparse_offers),
      (map row_delivery_in_days sparse_offers),
      [1; 800]%float, [0; 4]%float, [3; 4]%float.
    repeat split; reflexivity.
  - left. reflexivity.
Defined.

(** X6.  The fallback branch needs its three columns: on a frame that
    lacks ["price"], ["rating"] or ["delivery_in_days"], [infer_topk]
    returns no ranking but raises, and writes no score; when it is
    ["price"] that is missing the exception is [AttributeError] and the
    frame is left as it was. *)
Theorem fallback_needs_its_three_columns :
  forall (argsort : list float -> list nat)
         (coerce_object : cell -> Result float)
         (g : Globals) (k : Z) (df : DataFrame),
    fallback_active g ->
    lookup "price" (columns df) = None \/
    lookup "rating" (columns df) = None \/
    lookup "delivery_in_days" (columns df) = None ->
    let run := infer_topk argsort coerce_object g k df in
    (exists e, fst run = Raise e) /\
    scores_of (snd run) = scores_of df /\
    (lookup "price" (columns df) = None ->
     run = (Raise AttributeError, df)).
Proof.
  intros argsort coerce_object g k df Hg Hmiss run.
  assert (Hscore : score coerce_object g df = fallback_outcome coerce_object df)
    by (apply score_fallback_active, Hg).
  assert (Hstop : forall e d,
            fallback_outcome coerce_object df = (Raise e, d) ->
            scores_of d = scores_of df ->
            (exists e', fst run = Raise e') /\
            scores_of (snd run) = scores_of df).
  { intros e d Hout Hd. rewrite <- Hscore in Hout.
    unfold run.
    rewrite (infer_topk_raise argsort coerce_object g k df e d Hout).
    split; [exists e; reflexivity|exact Hd]. }
  split; [|split].
  - unfold fallback_outcome in Hstop.
    destruct (lookup "price" (columns df)) as [cp|];
      [|apply (Hstop _ _ eq_refl eq_refl)].
    destruct (defaulted coerce_object 1 cp) as [P|e];
      [|apply (Hstop _ _ eq_refl eq_refl)].
    destruct (lookup "rating" (columns df)) as [cr|];
      [|apply (Hstop _ _ eq_refl); apply scores_of_set_other; discriminate].
    destruct (defaulted coerce_object 0 cr) as [R|e];
      [|apply (Hstop _ _ eq_refl); apply scores_of_set_other; discriminate].
    destruct (lookup "delivery_in_days" (columns df)) as [cd|].
    + destruct Hmiss as [H|[H|H]]; discriminate H.
    + apply (Hstop _ _ eq_refl).
      rewrite !scores_of_set_other by discriminate. reflexivity.
  - unfold fallback_outcome in Hstop.
    destruct (lookup "price" (columns df)) as [cp|];
      [|apply (Hstop _ _ eq_refl eq_refl)].
    destruct (defaulted coerce_object 1 cp) as [P|e];
      [|apply (Hstop _ _ eq_refl eq_refl)].
    destruct (lookup "rating" (columns df)) as [cr|];
      [|apply (Hstop _ _ eq_refl); apply scores_of_set_other; discriminate].
    destruct (defaulted coerce_object 0 cr) as [R|e];
      [|apply (Hstop _ _ eq_refl); apply scores_of_set_other; discriminate].
    destruct (lookup "delivery_in_days" (columns df)) as [cd|].
    + destruct Hmiss as [H|[H|H]]; discriminate H.
    + apply (Hstop _ _ eq_refl).
      rewrite !scores_of_set_other by discriminate. reflexivity.
  - intros Hp. unfold run.
    apply fallback_without_price_column_raises; assumption.
Qed.

Lemma fallback_needs_its_three_columns_witness :
  let df := mkDataFrame [0] [("price", [CNum 5])] in
  let run := infer_topk argsort_stable rejects_objects no_artifact 3 df in
  (exists e, fst run = Raise e) /\
  scores_of (snd run) = scores_of df /\
  (lookup "price" (columns df) = None ->
   run = (Raise AttributeError, df)).
Proof.
  apply (fallback_needs_its_three_columns argsort_stable rejects_objects
           no_artifact 3 (mkDataFrame [0] [("price", [CNum 5])])).
  - left. reflexivity.
  - right. left. reflexivity.
Defined.

(** ** Serving and training share the feature schema *)

(** X7.  Every feature the trainer fits the transform on is a column of
    the frame [chat] builds from a non-empty list of offers.  For an
    artifact of the trainer the model branch therefore adds no placeholder
    column, and the frame handed to the transform is the ten feature
    fields of the rows, in the trainer's order. *)
Theorem serving_frame_has_the_trained_features :
  forall (pre : Preprocessor) (rows : list FeatureRow),
    feature_names_in_ pre = trained_features ->
    rows <> [] ->
    add_missing_columns (feature_names_in_ pre) (DataFrame_of_records rows)
      = (Ok tt, DataFrame_of_records rows) /\
    model_input pre (DataFrame_of_records rows) =
      Ok (mkDataFrame (seq 0 (length rows))
            [ ("price", map row_price rows);
              ("rating", map row_rating rows);
              ("rating_count", map row_rating_count rows);
              ("delivery_in_days", map row_delivery_in_days rows);
              ("RAM_GB", map row_RAM_GB rows);
              ("warranty_months", map row_warranty_months rows);
              ("brand", map row_brand rows);
              ("Color", map row_Color rows);
              ("is_trusted_seller", map row_is_trusted_seller rows);
              ("is_replaceable", map row_is_replaceable rows) ]).
Proof.
  intros pre rows Hf Hne. unfold model_input. rewrite Hf.
  destruct rows as [|r rows]; [congruence|].
  split; reflexivity.
Qed.

Lemma serving_frame_has_the_trained_features_witness :
  let pre := mkPreprocessor trained_features (transform toy_preproc) in
  add_missing_columns (feature_names_in_ pre)
    (DataFrame_of_records example_offers)
    = (Ok tt, DataFrame_of_records example_offers) /\
  model_input pre (DataFrame_of_records example_offers) =
    Ok (mkDataFrame (seq 0 (length example_offers))
          [ ("price", map row_price example_offers);
            ("rating", map row_rating example_offers);
            ("rating_count", map row_rating_count example_offers);
            ("delivery_in_days", map row_delivery_in_days example_offers);
            ("RAM_GB", map row_RAM_GB example_offers);
            ("warranty_months", map row_warranty_months example_offers);
            ("brand", map row_brand example_offers);
            ("Color", map row_Color example_offers);
            ("is_trusted_seller", map row_is_trusted_seller example_offers);
            ("is_replaceable", map row_is_replaceable example_offers) ]).
Proof.
  apply (serving_frame_has_the_trained_features
           (mkPreprocessor trained_features (transform toy_preproc))
           example_offers).
  - reflexivity.
  - discriminate.
Defined.

(** ** The flattening loops of [chat] *)

(** X8.  The flattening yields one row per offer, in catalog order: the
    rows are as many as the offers of all variants together, their price,
    rating and delivery cells are what [offer.get] reads from the offers in
    that order ([None] for a missing key), and every row carries the
    product's name and brand. *)
Theorem flatten_one_row_per_offer :
  forall (py_str : cell -> string) (product : Product),
    let rows := flatten_offers py_str product in
    let all_offers := flat_map offers (variants product) in
    length rows = list_sum (map (fun v => length (offers v)) (variants product)) /\
    map row_price rows = map (fun o => dict_get o "price") all_offers /\
    map row_rating rows = map (fun o => dict_get o "rating") all_offers /\
    map row_delivery_in_days rows =
      map (fun o => dict_get o "delivery_in_days") all_offers /\
    Forall (fun r => row_product_name r = CStr (product_name product) /\
                     row_brand r = dict_get (attributes product) "brand")
      rows.
Proof.
  intros py_str product. unfold flatten_offers. cbv zeta.
  induction (variants product) as [|v vs IH]; simpl.
  - repeat split. constructor.
  - destruct IH as (Hlen & Hp & Hr & Hd & Hall).
    rewrite !length_app, !map_app, !length_map, !map_map. simpl.
    rewrite Hlen, Hp, Hr, Hd.
    repeat (split; [reflexivity|]).
    apply Forall_app. split; [|exact Hall].
    apply Forall_map, Forall_forall. intros o _. split; reflexivity.
Qed.

(** ** [chat] and the ranker *)

Section ChatRanks.

Variable argsort : list float -> list nat.
Variable coerce_object : cell -> Result float.
Variable py_str : cell -> string.
Variable format_results : Product -> DataFrame -> Result (list pydict).


End ChatRanks.



(** X10.  Whatever the message and the outcome of the lookup, [chat] calls
    [infer_topk] at most once and never on a frame without rows; it calls
    it exactly when the message is not empty and the entry found has an
    offer. *)
Theorem chat_calls_the_ranker_at_most_once :
  forall (argsort : list float -> list nat)
         (coerce_object : cell -> Result float) (py_str : cell -> string)
         (format_results : Product -> DataFrame -> Result (list pydict))
         (g : Globals) (user_input : string) (found : option Product),
    let calls :=
      ranker_calls
        (chat argsort coerce_object py_str format_results g user_input
           found) in
    length calls <= 1 /\
    Forall (fun df => nrows df <> 0) calls /\
    (calls <> [] <->
     user_input <> "" /\
     exists product,
       found = Some product /\ flatten_offers py_str product <> []).
Proof.
  intros argsort coerce_object py_str format_results g user_input found
    calls.
  unfold calls, chat.
  destruct (String.eqb_spec user_input "") as [->|Hin].
  { simpl. split; [lia|]. split; [constructor|]. split; [congruence|].
    intros [H _]. congruence. }
  destruct found as [product|].
  2: { simpl. split; [lia|]. split; [constructor|]. split; [congruence|].
       intros [_ [p [H _]]]. discriminate H. }
  destruct (flatten_offers py_str product) as [|r rows] eqn:Hflat.
  { simpl. split; [lia|]. split; [constructor|]. split; [congruence|].
    intros [_ [p [[= <-] H]]]. congruence. }
  destruct (infer_topk argsort coerce_object g 3
              (DataFrame_of_records (r :: rows))).
  cbn [ranker_calls length]. split; [lia|]. split.
  { constructor; [|constructor]. rewrite records_nrows. discriminate. }
  split.
  - intros _. split; [exact Hin|].
    exists product. split; [reflexivity|]. rewrite Hflat. discriminate.
  - discriminate.
Qed.

(** ** The name lookup *)

Lemma find_first {A : Type} (f : A -> bool) (l : list A) (x : A) :
  find f l = Some x ->
  exists before after,
    l = (before ++ x :: after)%list /\
    Forall (fun y => f y = false) before /\ f x = true.
Proof.
  induction l as [|a l IH]; simpl; [discriminate|].
  destruct (f a) eqn:E.
  - intros [= <-]. exists [], l. repeat split; [constructor|exact E].
  - intros H. destruct (IH H) as (before & after & -> & Hb & Hx).
    exists (a :: before), after. repeat split; [constructor|]; assumption.
Qed.

Section LookupFacts.

Variable get_close_matches : string -> list string -> list string.

Lemma find_by_name_present products best :
  In best (map product_name products) ->
  find (fun p => String.eqb (product_name p) best) products <> None.
Proof.
  intros Hin Hnone. apply in_map_iff in Hin. destruct Hin as (p & Hp & Hinp).
  pose proof (find_none _ _ Hnone p Hinp) as H. simpl in H.
  rewrite Hp, String.eqb_refl in H. discriminate.
Qed.

Lemma find_product_by_name_none products query :
  returns_candidates get_close_matches ->
  (find_product_by_name get_close_matches products query = None <->
   products = [] \/
   get_close_matches query (map product_name products) = []).
Proof.
  intros Hc. unfold find_product_by_name.
  destruct products as [|p0 products]; [split; auto|].
  cbn [map]. set (names := product_name p0 :: map product_name products).
  destruct (get_close_matches query names) as [|best rest] eqn:Hm.
  - split; auto.
  - split.
    + intros Hnone. exfalso.
      apply (find_by_name_present (p0 :: products) best); [|exact Hnone].
      apply (Hc query names). rewrite Hm. left. reflexivity.
    + intros [H|H]; discriminate H.
Qed.

End LookupFacts.

(** X11.  What the lookup returns is an entry of the catalog whose name is
    the first match the matcher gave, and the first entry of that name in
    catalog order. *)
Theorem lookup_returns_the_first_entry_of_the_best_name :
  forall (get_close_matches : string -> list string -> list string)
         (products : list Product) (query : string) (product : Product),
    find_product_by_name get_close_matches products query = Some product ->
    exists more before after,
      get_close_matches query (map product_name products)
        = product_name product :: more /\
      products = (before ++ product :: after)%list /\
      Forall (fun p => product_name p <> product_name product) before.
Proof.
  intros gcm products query product. unfold find_product_by_name.
  destruct (map product_name products) as [|n names] eqn:Hnames;
    [discriminate|].
  destruct (gcm query (n :: names)) as [|best more]; [discriminate|].
  intros H. destruct (find_first _ _ _ H) as (before & after & Hsplit & Hb & Hx).
  apply String.eqb_eq in Hx. subst best.
  exists more, before, after. repeat split; [exact Hsplit|].
  eapply Forall_impl; [|exact Hb]. intros p Hp. simpl in Hp.
  apply String.eqb_neq, Hp.
Qed.

Lemma lookup_returns_the_first_entry_witness :
  exists more before after,
    exact_matches "Phone X" (map product_name sample_catalog)
      = product_name product_without_offers :: more /\
    sample_catalog = (before ++ product_without_offers :: after)%list /\
    Forall (fun p => product_name p <> product_name product_without_offers)
      before.
Proof.
  apply (lookup_returns_the_first_entry_of_the_best_name exact_matches
           sample_catalog "Phone X" product_without_offers).
  reflexivity.
Defined.

(** X12.  With a matcher that returns only names it was given, the lookup
    finds nothing exactly when the catalog is empty or the matcher returns
    no match: a name the matcher returns always leads to an entry. *)
Theorem lookup_fails_only_without_a_match :
  forall (get_close_matches : string -> list string -> list string)
         (products : list Product) (query : string),
    returns_candidates get_close_matches ->
    (find_product_by_name get_close_matches products query = None <->
     products = [] \/
     get_close_matches query (map product_name products) = []).
Proof.
  intros gcm products query Hc. apply find_product_by_name_none, Hc.
Qed.

Lemma exact_matches_returns_candidates : returns_candidates exact_matches.
Proof.
  intros word possibilities m Hm. unfold exact_matches in Hm.
  apply In_firstn, filter_In in Hm. apply Hm.
Qed.

Lemma lookup_fails_only_without_a_match_witness :
  find_product_by_name exact_matches sample_catalog "Laptop" = None <->
  sample_catalog = [] \/
  exact_matches "Laptop" (map product_name sample_catalog) = [].
Proof.
  apply (lookup_fails_only_without_a_match exact_matches sample_catalog
           "Laptop").
  exact exact_matches_returns_candidates.
Defined.

(** X13.  [chat] with its lookup answers "not found" exactly when the
    catalog is empty or the matcher has no match for the message, and then
    it does not call [infer_topk]. *)
Theorem no_match_answers_not_found :
  forall (get_close_matches : string -> list string -> list string)
         (argsort : list float -> list nat)
         (coerce_object : cell -> Result float) (py_str : cell -> string)
         (format_results : Product -> DataFrame -> Result (list pydict))
         (g : Globals) (products : list Product) (user_input : string),
    returns_candidates get_close_matches ->
    user_input <> "" ->
    let run :=
      chat_with_lookup get_close_matches argsort coerce_object py_str
        format_results g products user_input in
    (response run = Ok (NotFound user_input) <->
     products = [] \/
     get_close_matches user_input (map product_name products) = []) /\
    (response run = Ok (NotFound user_input) -> ranker_calls run = []).
Proof.
  intros gcm argsort coerce_object py_str format_results g products
    user_input Hc Hin run.
  pose proof (find_product_by_name_none gcm products user_input Hc) as Hnone.
  unfold run, chat_with_lookup, chat.
  destruct (String.eqb_spec user_input "") as [->|_]; [congruence|].
  destruct (find_product_by_name gcm products user_input) as [product|].
  - assert (Hno : products = [] \/
                  gcm user_input (map product_name products) = [] -> False).
    { intros H. apply Hnone in H. discriminate H. }
    destruct (flatten_offers py_str product) as [|r rows].
    + simpl. split; [split; [discriminate|intros H; destruct (Hno H)]|].
      discriminate.
    + destruct (infer_topk argsort coerce_object g 3
                  (DataFrame_of_records (r :: rows))) as [[topk|e] df'];
        cbn [response rbind rmap ranker_calls];
        [destruct (format_results product topk) as [formatted|e]|];
        cbn [rmap];
        (split; [split; [discriminate|intros H; destruct (Hno H)]|]);
        discriminate.
  - simpl. split; [|reflexivity].
    split; [intros _; apply Hnone; reflexivity|reflexivity].
Qed.

Lemma no_match_answers_not_found_witness :
  let run :=
    chat_with_lookup exact_matches argsort_stable rejects_objects str_blank
      score_records no_artifact sample_catalog "Laptop" in
  (response run = Ok (NotFound "Laptop") <->
   sample_catalog = [] \/
   exact_matches "Laptop" (map product_name sample_catalog) = []) /\
  (response run = Ok (NotFound "Laptop") -> ranker_calls run = []).
Proof.
  apply (no_match_answers_not_found exact_matches argsort_stable
           rejects_objects str_blank score_records no_artifact
           sample_catalog "Laptop").
  - exact exact_matches_returns_candidates.
  - discriminate.
Defined.

(** ** The training target *)

Lemma is_zero_spec x :
  PrimFloat.is_zero x = true -> exists s, Prim2SF x = S754_zero s.
Proof.
  unfold PrimFloat.is_zero. rewrite FloatAxioms.eqb_spec.
  change (Prim2SF zero) with (S754_zero false). unfold SFeqb.
  destruct (Prim2SF x) as [s|s| |s m e]; simpl.
  - intros _. exists s. reflexivity.
  - destruct s; discriminate.
  - discriminate.
  - destruct s; discriminate.
Qed.

Lemma zero_over_1000 x :
  (exists s, Prim2SF x = S754_zero s) ->
  exists s, Prim2SF (x / 1000) = S754_zero s.
Proof.
  intros [s Hx]. rewrite FloatAxioms.div_spec, Hx.
  set (c := Prim2SF 1000). vm_compute in c. subst c.
  eexists. reflexivity.
Qed.

Lemma quotient_by_zero_not_finite y z :
  (exists s, Prim2SF z = S754_zero s) ->
  PrimFloat.is_finite (y / z) = false.
Proof.
  intros [s Hz]. unfold PrimFloat.is_finite.
  assert (H : Prim2SF (y / z) = S754_nan \/
              exists s', Prim2SF (y / z) = S754_infinity s').
  { rewrite FloatAxioms.div_spec, Hz. unfold SF64div, SFdiv.
    destruct (Prim2SF y); eauto. }
  destruct H as [H|[s' H]].
  - apply F64.is_nan_spec in H. rewrite H. reflexivity.
  - assert (Hinf : PrimFloat.is_infinity (y / z) = true).
    { unfold PrimFloat.is_infinity.
      rewrite FloatAxioms.eqb_spec, FloatAxioms.abs_spec, H. reflexivity. }
    rewrite Hinf, orb_true_r. reflexivity.
Qed.

Lemma nth_series_quot xs ys i :
  i < length xs -> i < length ys ->
  nth i (series_quot xs ys) nan = (nth i xs nan / nth i ys nan)%float.
Proof.
  unfold series_quot. revert ys i.
  induction xs as [|x xs IH]; intros [|y ys] [|i]; simpl; try lia.
  - reflexivity.
  - intros. apply IH; lia.
Qed.

Lemma length_series_mul xs ys :
  length (series_mul xs ys) = Nat.min (length xs) (length ys).
Proof. unfold series_mul. rewrite length_map. apply length_combine. Qed.

Section TrainingFacts.

Variable coerce_object : cell -> Result float.
Variable log1p : float -> float.

Lemma defaulted_nth_number d cells P i x :
  defaulted coerce_object d cells = Ok P ->
  nth_error cells i = Some (CNum x) ->
  nth i P nan = fill_value d x.
Proof.
  unfold defaulted. revert P i.
  induction cells as [|c cells IH]; intros P [|i]; simpl; try discriminate.
  - destruct (to_numeric_cell coerce_object c) as [y|] eqn:Hy; simpl;
      [|discriminate].
    destruct (to_numeric_cells coerce_object cells); simpl; [|discriminate].
    intros [= <-] [= ->]. simpl in Hy. injection Hy as <-. reflexivity.
  - destruct (to_numeric_cell coerce_object c) as [y|]; simpl; [|discriminate].
    destruct (to_numeric_cells coerce_object cells) as [ys|] eqn:Hys; simpl;
      [|discriminate].
    intros [= <-] Hnth. simpl. apply (IH (map (fill_value d) ys) i);
      [reflexivity|exact Hnth].
Qed.

End TrainingFacts.

(** X14.  The trainer fills a missing price with 1 but leaves a price of
    zero as it is, and divides by it: for a row whose price is the number 0
    the target [bestness_score] is infinite or NaN, whatever its rating and
    rating count. *)
Theorem zero_price_gives_no_finite_target :
  forall (coerce_object : cell -> Result float) (log1p : float -> float)
         (price rating rating_count : list cell) (target : list float)
         (i : nat) (x : float),
    training_target coerce_object log1p price rating rating_count
      = Ok target ->
    length rating = length price ->
    length rating_count = length price ->
    nth_error price i = Some (CNum x) ->
    PrimFloat.is_zero x = true ->
    PrimFloat.is_finite (nth i target nan) = false.
Proof.
  intros coerce_object log1p price rating rating_count target i x
    Ht Hr Hc Hnth Hzero.
  unfold training_target in Ht.
  destruct (defaulted coerce_object 1 price) as [P|] eqn:HP; [|discriminate].
  destruct (defaulted coerce_object 0 rating) as [R|] eqn:HR; [|discriminate].
  destruct (defaulted coerce_object 0 rating_count) as [C|] eqn:HC;
    [|discriminate].
  simpl in Ht. injection Ht as <-.
  pose proof (defaulted_length _ _ _ _ HP) as LP.
  pose proof (defaulted_length _ _ _ _ HR) as LR.
  pose proof (defaulted_length _ _ _ _ HC) as LC.
  assert (Hi : i < length price) by (apply nth_error_Some; congruence).
  unfold bestness_score.
  rewrite nth_series_quot
    by (rewrite ?length_series_mul; unfold series_div;
        rewrite ?length_map; lia).
  apply quotient_by_zero_not_finite.
  unfold series_div. rewrite (nth_map_lt _ P i nan nan) by lia.
  apply zero_over_1000.
  rewrite (defaulted_nth_number coerce_object 1 price P i x HP Hnth).
  destruct (is_zero_spec x Hzero) as [s Hs].
  assert (Hnn : PrimFloat.is_nan x = false).
  { destruct (PrimFloat.is_nan x) eqn:E; [|reflexivity].
    apply F64.is_nan_spec in E. congruence. }
  unfold fill_value. rewrite Hnn. exists s. exact Hs.
Qed.

Lemma zero_price_gives_no_finite_target_witness :
  PrimFloat.is_finite
    (nth 1 (bestness_score (fun c => c) [800; 0]%float [4; 4.5]%float [10; 20]%float) nan)
  = false.
Proof.
  apply (zero_price_gives_no_finite_target rejects_objects (fun c => c)
           [CNum 800; CNum 0] [CNum 4; CNum 4.5] [CNum 10; CNum 20]
           (bestness_score (fun c => c) [800; 0]%float [4; 4.5]%float [10; 20]%float) 1 0).
  - reflexivity.
  - reflexivity.
  - reflexivity.
  - reflexivity.
  - reflexivity.
Defined.

(** ** Rows alike in a batch *)

(** X15.  Within one batch the fallback score is a function of the row's
    own defaulted price, rating and delivery time: two rows that agree on
    the three get the same score. *)
Theorem equal_rows_get_equal_scores :
  forall (argsort : list float -> list nat)
         (coerce_object : cell -> Result float)
         (g : Globals) (k : Z) (rows : list FeatureRow) (P R D : list float)
         (i j : nat),
    fallback_active g ->
    defaulted coerce_object 1 (map row_price rows) = Ok P ->
    defaulted coerce_object 0 (map row_rating rows) = Ok R ->
    defaulted coerce_object 3 (map row_delivery_in_days rows) = Ok D ->
    i < length rows -> j < length rows ->
    nth i P nan = nth j P nan ->
    nth i R nan = nth j R nan ->
    nth i D nan = nth j D nan ->
    exists scores,
      scores_of (snd (infer_topk argsort coerce_object g k
                        (DataFrame_of_records rows))) = Ok scores /\
      nth i scores nan = nth j scores nan.
Proof.
  intros argsort coerce_object g k rows P R D i j Hg HP HR HD Hi Hj EP ER ED.
  assert (Hne : rows <> []) by (destruct rows; simpl in *; [lia|discriminate]).
  pose proof (defaulted_length _ _ _ _ HP) as LP.
  pose proof (defaulted_length _ _ _ _ HR) as LR.
  pose proof (defaulted_length _ _ _ _ HD) as LD.
  rewrite length_map in LP, LR, LD.
  exists (fallback_formula P R D). split.
  - rewrite (infer_topk_records argsort coerce_object g k rows Hg Hne).
    rewrite HP, HR, HD. cbn [snd].
    unfold scores_of, getitem. simpl. rewrite values_CNum. reflexivity.
  - rewrite !fallback_formula_nth by lia. rewrite EP, ER, ED. reflexivity.
Qed.

Lemma equal_rows_get_equal_scores_witness :
  exists scores,
    scores_of (snd (infer_topk argsort_stable rejects_objects no_artifact 3
                      (DataFrame_of_records tied_offers))) = Ok scores /\
    nth 16 scores nan = nth 17 scores nan.
Proof.
  apply (equal_rows_get_equal_scores argsort_stable rejects_objects
           no_artifact 3 tied_offers
           (repeat 100 18)%float
           (repeat 3 16 ++ repeat 5 2)%list%float
           (repeat 2 18)%float 16 17).
  - left. reflexivity.
  - reflexivity.
  - reflexivity.
  - reflexivity.
  - simpl. lia.
  - simpl. lia.
  - reflexivity.
  - reflexivity.
  - reflexivity.
Defined.

(** ** The model branch on the frames [chat] builds *)

(** X16.  Under an artifact fitted on the trainer's features, scoring a
    frame [chat] built changes nothing in it but adds the score column: no
    placeholder is added and no cell is rewritten, so a missing price is
    still missing afterwards (the fallback writes 1 in its place). *)
Theorem trained_model_only_adds_the_score :
  forall (argsort : list float -> list nat)
         (coerce_object : cell -> Result float)
         (g : Globals) (pre : Preprocessor) (mdl : Regressor) (k : Z)
         (rows : list FeatureRow) (input : DataFrame)
         (X : list (list float)) (preds : list float),
    preproc g = Some pre ->
    model g = Some mdl ->
    feature_names_in_ pre = trained_features ->
    rows <> [] ->
    model_input pre (DataFrame_of_records rows) = Ok input ->
    transform pre input = Ok X ->
    predict mdl X = Ok preds ->
    length preds = length rows ->
    let df := DataFrame_of_records rows in
    let df' := snd (infer_topk argsort coerce_object g k df) in
    df' = set_column "_pred_score" (map CNum preds) df /\
    lookup "price" (columns df') = Some (map row_price rows) /\
    forall name, name <> "_pred_score" ->
      lookup name (columns df') = lookup name (columns df).
Proof.
  intros argsort coerce_object g pre mdl k rows input X preds
    Hpre Hmdl Hf Hne Hin HX Hp Hlen df df'.
  assert (Hadd : add_missing_columns (feature_names_in_ pre) df = (Ok tt, df)).
  { unfold df. rewrite Hf. destruct rows; [congruence|reflexivity]. }
  assert (Hdf' : df' = set_column "_pred_score" (map CNum preds) df).
  { unfold df'. rewrite infer_topk_state.
    rewrite (score_model_active coerce_object g pre mdl df Hpre Hmdl).
    rewrite (score_model_scored pre mdl df input X preds Hin HX Hp)
      by (unfold df; rewrite records_nrows; exact Hlen).
    rewrite Hadd. reflexivity. }
  split; [exact Hdf'|]. rewrite Hdf'. split.
  - rewrite lookup_set_other by discriminate. apply records_price, Hne.
  - intros name Hname. apply lookup_set_other, Hname.
Qed.

Lemma trained_model_only_adds_the_score_witness :
  let g :=
    mkGlobals (Some (mkPreprocessor trained_features (transform toy_preproc)))
      (Some toy_model) in
  let df := DataFrame_of_records sparse_offers in
  let df' := snd (infer_topk argsort_stable rejects_objects g 3 df) in
  df' = set_column "_pred_score" (map CNum [140; 948]%float) df /\
  lookup "price" (columns df') = Some (map row_price sparse_offers) /\
  forall name, name <> "_pred_score" ->
    lookup name (columns df') = lookup name (columns df).
Proof.
  apply (trained_model_only_adds_the_score argsort_stable rejects_objects
           (mkGlobals
              (Some (mkPreprocessor trained_features (transform toy_preproc)))
              (Some toy_model))
           (mkPreprocessor trained_features (transform toy_preproc))
           toy_model 3 sparse_offers
           (mkDataFrame [0; 1]
              [ ("price", map row_price sparse_offers);
                ("rating", map row_rating sparse_offers);
                ("rating_count", map row_rating_count sparse_offers);
                ("delivery_in_days", map row_delivery_in_days sparse_offers);
                ("RAM_GB", map row_RAM_GB sparse_offers);
                ("warranty_months", map row_warranty_months sparse_offers);
                ("brand", map row_brand sparse_offers);
                ("Color", map row_Color sparse_offers);
                ("is_trusted_seller", map row_is_trusted_seller sparse_offers);
                ("is_replaceable", map row_is_replaceable sparse_offers) ])
           [[0; 0; 120; 0; 8; 12; 0; 0; 0; 0];
            [800; 4; 120; 4; 8; 12; 0; 0; 0; 0]]%float
           [140; 948]%float);
    try reflexivity.
  discriminate.
Defined.

(** ** A negative count *)

(** X17.  For a negative [k], [infer_topk] does not fail: it returns the
    ranking without its last [-k] rows, and nothing once [-k] reaches the
    number of rows. *)
Theorem negative_k_drops_the_last_rows :
  forall (argsort : list float -> list nat)
         (coerce_object : cell -> Result float)
         (g : Globals) (k : Z) (df : DataFrame),
    sorts_ascending argsort ->
    well_formed df ->
    scorable coerce_object g df ->
    (k < 0)%Z ->
    exists topk df',
      infer_topk argsort coerce_object g k df = (Ok topk, df') /\
      nrows topk = nrows df - Z.to_nat (- k).
Proof.
  intros argsort coerce_object g k df Hsort Hwf Hsc Hk.
  destruct (scorable_scored coerce_object g df Hwf Hsc)
    as (df' & S & Hrun & Hl & Hlen & Hidx).
  eexists. eexists. split.
  - apply (infer_topk_scored argsort coerce_object g k df df' S Hrun Hl).
  - rewrite head_negative by exact Hk.
    rewrite nrows_take_rows, nargsort_length by exact Hsort.
    rewrite Hlen. reflexivity.
Qed.

Lemma negative_k_drops_the_last_rows_witness :
  exists topk df',
    infer_topk argsort_stable rejects_objects no_artifact (-1)
      (DataFrame_of_records example_offers) = (Ok topk, df') /\
    nrows topk = nrows (DataFrame_of_records example_offers) - Z.to_nat (- (-1)).
Proof.
  apply (negative_k_drops_the_last_rows argsort_stable rejects_objects
           no_artifact (-1) (DataFrame_of_records example_offers)).
  - exact argsort_stable_sorts.
  - apply records_well_formed.
  - exists (map row_price example_offers), (map row_rating example_offers),
      (map row_delivery_in_days example_offers),
      [1000; 500]%float, [4.5; 3]%float, [2; 5]%float.
    repeat split; reflexivity.
  - lia.
Defined.

(** ** The trainer's rows *)

Lemma concat_results_ok {A : Type} (parts : list (list A)) :
  concat_results (map Ok parts) = Ok (concat parts).
Proof.
  induction parts as [|xs parts IH]; simpl; [reflexivity|].
  rewrite IH. reflexivity.
Qed.



Lemma rows_of_variant_with_every_key vid product variant :
  rows_of_variant (with_every_key vid product)
    (mkCatalogVariant (Some vid) (Some (specifications variant))
       (Some (offers variant)))
  = Ok (map (training_row (CStr (product_name product))
               (dict_get (attributes product) "brand") vid
               (specifications variant))
          (offers variant)).
Proof.
  unfold rows_of_variant. cbn.
  induction (offers variant) as [|offer rest IH]; cbn; [reflexivity|].
  rewrite IH. reflexivity.
Qed.

Lemma rows_of_product_with_every_key vid product :
  rows_of_product (with_every_key vid product)
  = Ok (flat_map
          (fun variant =>
             map (training_row (CStr (product_name product))
                    (dict_get (attributes product) "brand") vid
                    (specifications variant))
               (offers variant))
          (variants product)).
Proof.
  unfold rows_of_product.
  change (entry_variants (with_every_key vid product))
    with (Some (map (fun v =>
                       mkCatalogVariant (Some vid) (Some (specifications v))
                         (Some (offers v)))
                    (variants product))).
  cbn [required rbind].
  induction (variants product) as [|variant rest IH]; [reflexivity|].
  cbn [map concat_results flat_map].
  rewrite rows_of_variant_with_every_key, IH. reflexivity.
Qed.

Lemma load_and_flatten_with_every_key vid products :
  load_and_flatten_data (map (with_every_key vid) products)
  = Ok (flat_map
          (fun product =>
             flat_map
               (fun variant =>
                  map (training_row (CStr (product_name product))
                         (dict_get (attributes product) "brand") vid
                         (specifications variant))
                    (offers variant))
               (variants product))
          products).
Proof.
  unfold load_and_flatten_data.
  induction products as [|product rest IH]; [reflexivity|].
  cbn [map concat_results flat_map].
  rewrite rows_of_product_with_every_key, IH. reflexivity.
Qed.

Lemma map_flat_map {A B C : Type} (f : B -> C) (g : A -> list B) l :
  map f (flat_map g l) = flat_map (fun a => map f (g a)) l.
Proof.
  induction l as [|a l IH]; simpl; [reflexivity|].
  rewrite map_app, IH. reflexivity.
Qed.

(** X18.  On a catalog whose entries have every key the trainer indexes,
    [load_and_flatten_data] succeeds, and each of the ten model features
    has in the trainer's rows the values [chat] puts, product after product,
    in the frame it ranks. *)
Theorem trainer_and_chat_flatten_alike :
  forall (py_str : cell -> string) (vid : cell) (products : list Product),
    exists rows,
      load_and_flatten_data (map (with_every_key vid) products) = Ok rows /\
      let served := flat_map (flatten_offers py_str) products in
      map (fun row => dict_get row "price") rows = map row_price served /\
      map (fun row => dict_get row "rating") rows = map row_rating served /\
      map (fun row => dict_get row "rating_count") rows
      = map row_rating_count served /\
      map (fun row => dict_get row "delivery_in_days") rows
      = map row_delivery_in_days served /\
      map (fun row => dict_get row "RAM_GB") rows = map row_RAM_GB served /\
      map (fun row => dict_get row "warranty_months") rows
      = map row_warranty_months served /\
      map (fun row => dict_get row "brand") rows = map row_brand served /\
      map (fun row => dict_get row "Color") rows = map row_Color served /\
      map (fun row => dict_get row "is_trusted_seller") rows
      = map row_is_trusted_seller served /\
      map (fun row => dict_get row "is_replaceable") rows
      = map row_is_replaceable served.
Proof.
  intros py_str vid products. eexists. split.
  - apply load_and_flatten_with_every_key.
  - cbv zeta. unfold flatten_offers.
    repeat split;
      rewrite !map_flat_map;
      apply flat_map_ext; intros product;
      rewrite !map_flat_map;
      apply flat_map_ext; intros variant;
      rewrite !map_map; reflexivity.
Qed.



